(** * mc-discord-auth: account links, pending authorisations, validation endpoint

    A shallow embedding of
    - [src/db/tables/links.ts]      (class [LinksTable]),
    - the pending-authorisation table (class [AuthCodes]),
    - [src/webserver/WebServer.ts]  (class [WebServer]).

    SQL tables are lists of rows in storage order; a prepared statement's
    [.get(...)] yields the first row the statement produces.  Promises are
    modelled by their settlement: [Return v] for a fulfilled promise (or a
    normal return), [Throw e] for a rejected one (or a thrown exception). *)

From Stdlib Require Import String Ascii List Bool ZArith.
Import ListNotations.
Local Open Scope string_scope.
Local Open Scope list_scope.

(** ** JavaScript values and exceptions *)

(** The exceptions the three classes raise or can observe.  The side of an
    [AlreadyLinkedError] is the string literal handed to its constructor. *)
Inductive JsError : Type :=
| NoDiscordAccError
| NoMcAccError
| AlreadyLinkedError (side : string)
| TypeError (message : string)
| SqliteError (message : string)
| HeadersSentError
| OtherError (message : string).

Inductive Outcome (A : Type) : Type :=
| Return (a : A)
| Throw (e : JsError).
Arguments Return {A} a.
Arguments Throw {A} e.

(** Values a parsed JSON document (or a missing one) can take.  Numbers are
    kept as integers: nothing below inspects a number beyond its type. *)
#[warnings="-register-all"]
Inductive JsValue : Type :=
| JUndefined
| JNull
| JBool (b : bool)
| JNumber (n : Z)
| JString (s : string)
| JArray (items : list JsValue)
| JObject (fields : list (string * JsValue)).

(** [v == undefined] (loose equality): true of [undefined] and [null] only. *)
Definition loose_undefined (v : JsValue) : bool :=
  match v with
  | JUndefined | JNull => true
  | _ => false
  end.

(** [typeof v]. *)
Definition typeof (v : JsValue) : string :=
  match v with
  | JUndefined => "undefined"
  | JNull => "object"
  | JBool _ => "boolean"
  | JNumber _ => "number"
  | JString _ => "string"
  | JArray _ => "object"
  | JObject _ => "object"
  end.

(** Truthiness of a string: every string but the empty one. *)
Definition truthy (s : string) : bool :=
  match s with
  | EmptyString => false
  | String _ _ => true
  end.

(** [s.split(sep)] for a one-character separator: every occurrence of the
    separator ends a segment, empty segments are kept, and the result is
    never empty ([''.split(' ')] is [['']]). *)
Fixpoint split (sep : ascii) (s : string) : list string :=
  match s with
  | EmptyString => [EmptyString]
  | String c rest =>
      if Ascii.eqb c sep then EmptyString :: split sep rest
      else match split sep rest with
           | [] => [String c EmptyString]
           | w :: ws => String c w :: ws
           end
  end.

(** Whether the character occurs in the string. *)
Fixpoint occurs (sep : ascii) (s : string) : bool :=
  match s with
  | EmptyString => false
  | String c rest => Ascii.eqb c sep || occurs sep rest
  end.

(** [segments.join(sep)] for a one-character separator. *)
Fixpoint join (sep : ascii) (segments : list string) : string :=
  match segments with
  | [] => EmptyString
  | [s] => s
  | s :: rest => (s ++ String sep (join sep rest))%string
  end.

Definition space : ascii := " "%char.
Definition dash : ascii := "-"%char.

(** ** [LinksTable]: the [account_links] table *)

Module LinksTable.

(** [account_links (minecraft text UNIQUE NOT NULL,
                  discord text PRIMARY KEY NOT NULL)] *)
Record Row : Type := { minecraft : string; discord : string }.

Definition Table : Type := list Row.

(** [CREATE TABLE IF NOT EXISTS]: a fresh database holds no link. *)
Definition init : Table := [].

(** The constraints of the schema: no two rows share a column value. *)
Definition wf (t : Table) : Prop :=
  NoDup (map minecraft t) /\ NoDup (map discord t).

(** [db.prepare('SELECT ... WHERE <p>').get(...)]: the first row, if any. *)
Definition get (p : Row -> bool) (t : Table) : option Row := find p t.

(** [INSERT INTO account_links (discord, minecraft) VALUES (?,?)]:
    rejected when a key is already present, appended otherwise. *)
Definition insert (discordID mcID : string) (t : Table) : Outcome unit * Table :=
  if existsb (fun r => discord r =? discordID) t then
    (Throw (SqliteError "UNIQUE constraint failed: account_links.discord"), t)
  else if existsb (fun r => minecraft r =? mcID) t then
    (Throw (SqliteError "UNIQUE constraint failed: account_links.minecraft"), t)
  else (Return tt, t ++ [{| minecraft := mcID; discord := discordID |}]).

(** [getMcID]: [row?.minecraft], returned when truthy, else [NoMcAccError]. *)
Definition getMcID (discordID : string) (t : Table) : Outcome string :=
  let row := get (fun r => discord r =? discordID) t in
  let uuid := option_map minecraft row in
  match uuid with
  | Some u => if truthy u then Return u else Throw NoMcAccError
  | None => Throw NoMcAccError
  end.

(** [getDiscordID]: [row?.discord], returned when truthy, else [null]
    (here [None]). *)
Definition getDiscordID (uuid : string) (t : Table) : Outcome (option string) :=
  let row := get (fun r => minecraft r =? uuid) t in
  let discordID := option_map discord row in
  match discordID with
  | Some d => if truthy d then Return (Some d) else Return None
  | None => Return None
  end.

(** [link]: look for a row holding either identifier; when there is one,
    the side is chosen by the truthiness of that row's two columns; when
    there is none, the pair is inserted. *)
Definition link (discordID mcID : string) (t : Table) : Outcome unit * Table :=
  let alreadyLinked :=
    get (fun r => (discord r =? discordID) || (minecraft r =? mcID)) t in
  match alreadyLinked with
  | Some row =>
      if truthy (discord row) && truthy (minecraft row) then
        (Throw (AlreadyLinkedError "both"), t)
      else if truthy (discord row) then
        (Throw (AlreadyLinkedError "discord"), t)
      else
        (Throw (AlreadyLinkedError "minecraft"), t)
  | None => insert discordID mcID t
  end.

(** The classification the interface describes for [link]: the colliding
    row's columns are compared with the requested identifiers. *)
Definition side_by_comparison (discordID mcID : string) (row : Row) : string :=
  if (discord row =? discordID) && (minecraft row =? mcID) then "both"
  else if discord row =? discordID then "discord"
  else "minecraft".

(** [arg || ''] for an optional string argument. *)
Definition or_empty (arg : option string) : string :=
  match arg with
  | Some a => if truthy a then a else EmptyString
  | None => EmptyString
  end.

(** [column == arg] for a text column and an optional string argument:
    a string never equals [undefined]. *)
Definition column_eq (column : string) (arg : option string) : bool :=
  match arg with
  | Some a => column =? a
  | None => false
  end.

(** [checkIfLinked(discordID?, minecraftID?)]: the same query as [link],
    with a missing argument replaced by the empty string; it reads only. *)
Definition checkIfLinked (discordID minecraftID : option string) (t : Table)
  : Outcome unit :=
  let alreadyLinked :=
    get (fun r => (discord r =? or_empty discordID)
                  || (minecraft r =? or_empty minecraftID)) t in
  match alreadyLinked with
  | Some row =>
      if column_eq (discord row) discordID then
        Throw (AlreadyLinkedError "both")
      else if truthy (minecraft row) then
        Throw (AlreadyLinkedError "minecraft")
      else
        Throw (AlreadyLinkedError "discord")
  | None => Return tt
  end.

(** [db.prepare('DELETE FROM account_links WHERE <p>').run(...)]:
    [info.changes] and the rows that stay. *)
Definition delete (p : Row -> bool) (t : Table) : nat * Table :=
  (length (filter p t), filter (fun r => negb (p r)) t).

(** [unlinkDiscordAcc(discordID)]: [info.changes > 0]. *)
Definition unlinkDiscordAcc (discordID : string) (t : Table) : bool * Table :=
  let info := delete (fun r => discord r =? discordID) t in
  (Nat.ltb 0 (fst info), snd info).

(** [unlinkMcAcc(playerUUID)]: [info.changes > 0]. *)
Definition unlinkMcAcc (playerUUID : string) (t : Table) : bool * Table :=
  let info := delete (fun r => minecraft r =? playerUUID) t in
  (Nat.ltb 0 (fst info), snd info).


End LinksTable.

(** ** [AuthCodes]: the [pending_authorisations] table *)

Module AuthCodes.

(** [AuthCodeProfile] *)
Record AuthCodeProfile : Type := { auth_code : string; mc_id : string }.

Definition Table : Type := list AuthCodeProfile.

(** [CREATE TABLE IF NOT EXISTS pending_authorisations
    (mc_id text UNIQUE NOT NULL, auth_code text UNIQUE NOT NULL)] *)
Definition init : Table := [].

Definition wf (t : Table) : Prop :=
  NoDup (map mc_id t) /\ NoDup (map auth_code t).

(** [generateAuthCodeString]: [uuid().split('-')[0]], with the freshly
    drawn version-1 UUID as an argument. *)
Definition generateAuthCodeString (uuid : string) : string :=
  match split dash uuid with
  | first :: _ => first
  | [] => EmptyString
  end.

(** [getMinecraftPlayer] and [getAuthCode]: the matching row or nothing. *)
Definition getMinecraftPlayer (mc : string) (t : Table) : option AuthCodeProfile :=
  find (fun r => mc_id r =? mc) t.

Definition getAuthCode (code : string) (t : Table) : option AuthCodeProfile :=
  find (fun r => auth_code r =? code) t.

(** [INSERT INTO pending_authorisations (auth_code, mc_id) VALUES (?, ?)
   ON CONFLICT(mc_id) DO UPDATE SET auth_code=? WHERE mc_id=? RETURNING *]

    A row with the same [mc_id] is rewritten in place; the [UNIQUE]
    constraint on [auth_code] is not the conflict target, so a clash with
    another row's code aborts the statement and changes nothing. *)
Definition rewrite_row (code mc : string) (r : AuthCodeProfile) : AuthCodeProfile :=
  if mc_id r =? mc then {| auth_code := code; mc_id := mc |} else r.

Definition upsert (code mc : string) (t : Table) : Outcome AuthCodeProfile * Table :=
  let row := {| auth_code := code; mc_id := mc |} in
  if existsb (fun r => (auth_code r =? code) && negb (mc_id r =? mc)) t then
    (Throw (SqliteError "UNIQUE constraint failed: pending_authorisations.auth_code"), t)
  else if existsb (fun r => mc_id r =? mc) t then
    (Return row, map (rewrite_row code mc) t)
  else
    (Return row, t ++ [row]).

(** [assertAuthCode(mc_id)]; [uuid] is the identifier the call draws. *)
Definition assertAuthCode (uuid : string) (mc : string) (t : Table)
  : Outcome AuthCodeProfile * Table :=
  let code := generateAuthCodeString uuid in
  upsert code mc t.

(** The pending rows held for a Minecraft id. *)
Definition pending_rows (mc : string) (t : Table) : list AuthCodeProfile :=
  filter (fun r => mc_id r =? mc) t.

End AuthCodes.

(** ** [WebServer]: the Express application *)

Module WebServer.

(** *** Requests, responses and the handlers' effects *)

(** The request as Express hands it to the application. *)
Record Incoming : Type := {
  method : string;
  path : string;
  authorization : option string;  (* req.header('Authorization') *)
  json : Outcome JsValue          (* what express.json() makes of the payload:
                                     the value it stores in req.body, or the
                                     error it forwards *)
}.

(** The request object the handlers share and write to. *)
Record Request : Type := {
  incoming : Incoming;
  body : JsValue;       (* req.body *)
  player_id : JsValue   (* req['player_id'] *)
}.

(** The response as the client receives it; [headers] lists the headers
    the application sets itself. *)
Record Response : Type := {
  statusCode : nat;
  headers : list (string * string);
  payload : option JsValue;   (* None: nothing was written *)
  finished : bool
}.

(** Calls that leave the process. *)
Inductive Event : Type :=
  | DbGetDiscordID (uuid : JsValue)
  | IsTierThree (discordID : JsValue).

(** Why Express's final handler was reached. *)
Inductive Final : Type :=
  | NoRoute
  | Uncaught (e : JsError).

Record World : Type := {
  req : Request;
  res : Response;
  log : list Event;
  final : option Final
}.

Definition initial (i : Incoming) : World :=
  {| req := {| incoming := i; body := JUndefined; player_id := JUndefined |};
     res := {| statusCode := 200; headers := []; payload := None; finished := false |};
     log := [];
     final := None |}.

(** Handlers run in a state-and-exception monad over [World]. *)
Definition M (A : Type) : Type := World -> Outcome A * World.

Definition ret {A} (a : A) : M A := fun w => (Return a, w).

Definition bind {A B} (m : M A) (k : A -> M B) : M B :=
  fun w =>
    match m w with
    | (Return a, w') => k a w'
    | (Throw e, w') => (Throw e, w')
    end.

Definition throw {A} (e : JsError) : M A := fun w => (Throw e, w).

Definition try_catch {A} (m : M A) (handler : JsError -> M A) : M A :=
  fun w =>
    match m w with
    | (Return a, w') => (Return a, w')
    | (Throw e, w') => handler e w'
    end.

Declare Scope js_scope.
Delimit Scope js_scope with js.
Notation "x <- m ;; k" := (bind m (fun x => k))
  (at level 61, m at next level, right associativity) : js_scope.
Notation "m ;; k" := (bind m (fun _ => k))
  (at level 61, right associativity) : js_scope.
Local Open Scope js_scope.

Definition with_res (f : Response -> Response) (w : World) : World :=
  {| req := req w; res := f (res w); log := log w; final := final w |}.

Definition with_req (f : Request -> Request) (w : World) : World :=
  {| req := f (req w); res := res w; log := log w; final := final w |}.

(** [res.status(code)]; a response already out keeps the status it left
    with. *)
Definition res_status (code : nat) : M unit :=
  fun w =>
    (Return tt,
     with_res (fun r =>
       if finished r then r
       else {| statusCode := code; headers := headers r;
               payload := payload r; finished := finished r |}) w).

(** [res.setHeader(name, value)]: refused once the response is out. *)
Definition res_setHeader (name value : string) : M unit :=
  fun w =>
    if finished (res w) then (Throw HeadersSentError, w)
    else
      (Return tt,
       with_res (fun r =>
         {| statusCode := statusCode r; headers := (name, value) :: headers r;
            payload := payload r; finished := finished r |}) w).

(** [res.send(v)]: writes the payload and completes the response; refused
    once the response is out. *)
Definition res_send (v : JsValue) : M unit :=
  fun w =>
    if finished (res w) then (Throw HeadersSentError, w)
    else
      (Return tt,
       with_res (fun r =>
         {| statusCode := statusCode r; headers := headers r;
            payload := Some v; finished := true |}) w).

(** [res.end()]: completes the response; a no-op on a completed one. *)
Definition res_end : M unit :=
  fun w =>
    (Return tt,
     with_res (fun r =>
       {| statusCode := statusCode r; headers := headers r;
          payload := payload r; finished := true |}) w).

(** [req.header('Authorization')], [req.body], [req['player_id']]. *)
Definition req_header_Authorization : M (option string) :=
  fun w => (Return (authorization (incoming (req w))), w).

Definition req_body : M JsValue := fun w => (Return (body (req w)), w).

Definition req_player_id : M JsValue := fun w => (Return (player_id (req w)), w).

(** [req['player_id'] = v] *)
Definition set_player_id (v : JsValue) : M unit :=
  fun w =>
    (Return tt,
     with_req (fun r => {| incoming := incoming r; body := body r; player_id := v |}) w).

(** [req.body = v] (done by the body parser). *)
Definition set_body (v : JsValue) : M unit :=
  fun w =>
    (Return tt,
     with_req (fun r => {| incoming := incoming r; body := v; player_id := player_id r |}) w).

Fixpoint lookup_field (key : string) (fields : list (string * JsValue)) : JsValue :=
  match fields with
  | [] => JUndefined
  | (k, v) :: rest => if k =? key then v else lookup_field key rest
  end.

(** The [player_id] property of a value other than [undefined] and [null]:
    the field of an object, [undefined] on every other value, none of which
    has a property of that name. *)
Definition own_player_id (v : JsValue) : JsValue :=
  match v with
  | JObject fields => lookup_field "player_id" fields
  | _ => JUndefined
  end.

(** [v['player_id']]: a [TypeError] on [undefined] and [null]. *)
Definition get_player_id (v : JsValue) : M JsValue :=
  if loose_undefined v then
    throw (TypeError "Cannot read property 'player_id' of undefined")
  else ret (own_player_id v).

(** [!auth] for [auth : string | undefined]. *)
Definition falsy (auth : option string) : bool :=
  match auth with
  | None => true
  | Some s => negb (truthy s)
  end.

(** [token == this.token] where [token] is [authSplit[1]]. *)
Definition loose_eq (token : option string) (expected : string) : bool :=
  match token with
  | Some s => s =? expected
  | None => false
  end.

Definition instanceof_NoDiscordAccError (err : JsError) : bool :=
  match err with
  | NoDiscordAccError => true
  | _ => false
  end.

(** The world once the response has gone out with a status and a payload
    ([None]: an empty body), and once calls have been logged. *)
Definition respond (code : nat) (v : option JsValue) (w : World) : World :=
  with_res (fun r =>
    {| statusCode := code; headers := headers r; payload := v; finished := true |}) w.

Definition logged (events : list Event) (w : World) : World :=
  {| req := req w; res := res w; log := log w ++ events; final := final w |}.

Definition with_header (name value : string) (w : World) : World :=
  with_res (fun r =>
    {| statusCode := statusCode r; headers := (name, value) :: headers r;
       payload := payload r; finished := finished r |}) w.

Definition attach_body (v : JsValue) (w : World) : World :=
  with_req (fun r => {| incoming := incoming r; body := v; player_id := player_id r |}) w.

Definition attach_player_id (v : JsValue) (w : World) : World :=
  with_req (fun r => {| incoming := incoming r; body := body r; player_id := v |}) w.

(** *** The collaborators and the constants the class imports *)

(** [DBController] and [Bot], by the one method the server calls on each. *)
Record DBController : Type := { getDiscordID : JsValue -> Outcome JsValue }.
Record Bot : Type := { isTierThree : JsValue -> Outcome bool }.

(** The fields of a [WebServer] instance ([app] is the stack below). *)
Record Fields : Type := {
  db : DBController;
  discord : Bot;
  port : N;
  token : string
}.

Section Handlers.

Variable this : Fields.

(** [./responses] and [./errors]. *)
Variables isValid isNotValid : JsValue.
Variables noBodyError noPlayerID playerIDType : JsValue.

(** Express's route matcher for [app.post(pattern, ...)]. *)
Variable matches_post : string -> Incoming -> bool.

Definition db_getDiscordID (uuid : JsValue) : M JsValue :=
  fun w =>
    (getDiscordID (db this) uuid,
     {| req := req w; res := res w;
        log := log w ++ [DbGetDiscordID uuid]; final := final w |}).

Definition discord_isTierThree (discordID : JsValue) : M bool :=
  fun w =>
    (isTierThree (discord this) discordID,
     {| req := req w; res := res w;
        log := log w ++ [IsTierThree discordID]; final := final w |}).

(** [checkAuth(req, res, next)] *)
Definition checkAuth (next : M unit) : M unit :=
  auth <- req_header_Authorization ;;
  if falsy auth then
    res_status 203 ;; res_end
  else
    let authSplit :=
      match auth with Some a => split space a | None => [] end in
    if Nat.eqb (length authSplit) 1 then
      res_status 203 ;; res_end
    else
      let token' := nth_error authSplit 1 in
      if loose_eq token' (token this) then next
      else res_status 401 ;; res_end.

(** [validateBody(req, res, next)] *)
Definition validateBody (next : M unit) : M unit :=
  b <- req_body ;;
  (if loose_undefined b then
     res_status 400 ;; res_send noBodyError ;; res_end
   else ret tt) ;;
  playerUUID <- get_player_id b ;;
  res_setHeader "Content-Type" "application/json" ;;
  if loose_undefined playerUUID then
    res_status 400 ;; res_send noPlayerID ;; res_end
  else if negb (typeof playerUUID =? "string") then
    res_status 400 ;; res_send playerIDType ;; res_end
  else
    set_player_id playerUUID ;; next.

(** [isValidPlayer(req, res)] *)
Definition isValidPlayer : M unit :=
  playerUUID <- req_player_id ;;
  try_catch
    (discordID <- db_getDiscordID playerUUID ;;
     isTierThree' <- discord_isTierThree discordID ;;
     res_status 200 ;;
     (if isTierThree' : bool then res_send isValid else res_send isNotValid) ;;
     res_end)
    (fun err =>
       if instanceof_NoDiscordAccError err then
         res_status 200 ;; res_send isNotValid ;; res_end
       else
         res_status 500 ;; res_send isNotValid ;; res_end).

(** The reply [isValidPlayer] gives, by what the lookup and the role check
    answer. *)
Definition verdict (w : World) : World :=
  let uuid := player_id (req w) in
  let w1 := logged [DbGetDiscordID uuid] w in
  match getDiscordID (db this) uuid with
  | Throw e =>
      respond (if instanceof_NoDiscordAccError e then 200 else 500)
        (Some isNotValid) w1
  | Return d =>
      let w2 := logged [IsTierThree d] w1 in
      match isTierThree (discord this) d with
      | Return true => respond 200 (Some isValid) w2
      | Return false => respond 200 (Some isNotValid) w2
      | Throw e =>
          respond (if instanceof_NoDiscordAccError e then 200 else 500)
            (Some isNotValid) w2
      end
  end.

(** [express.json()]: stores the parsed value in [req.body] and goes
    on, or forwards its error. *)
Definition express_json (next : M unit) : M unit :=
  fun w =>
    match json (incoming (req w)) with
    | Return v => (set_body v ;; next) w
    | Throw e => (Throw e, w)
    end.

(** *** The router *)

(** Express's final handler: it writes its own reply unless the
    response is already out. *)
Definition finalhandler (f : Final) : M unit :=
  fun w =>
    (Return tt,
     if finished (res w) then w
     else {| req := req w; res := res w; log := log w; final := Some f |}).

(** A layer's handler runs under the router's [try]: what it throws is
    forwarded as an error, and no error handler is registered. *)
Definition guarded (h : M unit) : M unit :=
  try_catch h (fun e => finalhandler (Uncaught e)).

(** An [async] handler returns a promise the router drops. *)
Definition detached (h : M unit) : M unit :=
  fun w => (Return tt, snd (h w)).

Record Layer : Type := {
  matches : Incoming -> bool;
  handle : M unit -> M unit
}.

Definition use_root (h : M unit -> M unit) : Layer :=
  {| matches := fun _ => true; handle := h |}.

Definition post (pattern : string) (h : M unit -> M unit) : Layer :=
  {| matches := matches_post pattern; handle := h |}.

(** [start()]: the layers in registration order. *)
Definition start : list Layer :=
  [ use_root checkAuth;
    post "/isValidPlayer" express_json;
    post "/isValidPlayer" validateBody;
    post "/isValidPlayer" (fun _ => detached isValidPlayer) ].

(** The router: the first matching layer runs, with the rest of the
    stack as its [next]. *)
Fixpoint run (stack : list Layer) : M unit :=
  match stack with
  | [] => finalhandler NoRoute
  | l :: rest =>
      fun w =>
        if matches l (incoming (req w)) then guarded (handle l (run rest)) w
        else run rest w
  end.

(** One request through the application. *)
Definition serve (i : Incoming) : World := snd (run start (initial i)).

End Handlers.

(** *** Replies and sample collaborators *)

(** The world once the request was left to Express's final handler. *)
Definition handed_over (f : Final) (w : World) : World :=
  {| req := req w; res := res w; log := log w; final := Some f |}.

(** A reply as the client sees it. *)
Definition reply (code : nat) (hs : list (string * string)) (v : option JsValue)
  : Response :=
  {| statusCode := code; headers := hs; payload := v; finished := true |}.

Definition content_type_json : list (string * string) :=
  [("Content-Type", "application/json")].

(** Modelled from the spec: [DBController] is not among the sources; its
    [getDiscordID] is the link store's lookup by Minecraft id, [null] when
    there is no link. *)
Definition links_db (t : LinksTable.Table) : DBController :=
  {| getDiscordID := fun uuid =>
       match uuid with
       | JString u =>
           match LinksTable.getDiscordID u t with
           | Return (Some d) => Return (JString d)
           | Return None => Return JNull
           | Throw e => Throw e
           end
       | _ => Return JNull
       end |}.

(** A server over a link table and a role check, with a token. *)
Definition server_over (t : LinksTable.Table) (oracle : JsValue -> Outcome bool)
  (tok : string) : Fields :=
  {| db := links_db t; discord := {| isTierThree := oracle |};
     port := 8080%N; token := tok |}.

(** A route matcher that compares method and path literally. *)
Definition literal_post (pattern : string) (i : Incoming) : bool :=
  (method i =? "POST") && (path i =? pattern).

(** A validation request carrying a bearer token and a JSON body. *)
Definition validation_request (bearer : string) (b : JsValue) : Incoming :=
  {| method := "POST"; path := "/isValidPlayer";
     authorization := Some ("Bearer " ++ bearer)%string; json := Return b |}.

(** *** The imported constants *)

(** Modelled from the spec: [./responses] is not among the sources; the
    positive reply is [{valid: true}], the negative one [{valid: false}]. *)
Definition isValid : JsValue := JObject [("valid", JBool true)].
Definition isNotValid : JsValue := JObject [("valid", JBool false)].

(** Modelled from the spec: [./errors] is not among the sources; each
    payload carries its [errcode] and a [message], whose text is given for
    [NO_PLAYER_ID] and [PLAYER_ID_TYPE] only. *)
Definition errorPayload (errcode message : string) : JsValue :=
  JObject [("errcode", JString errcode); ("message", JString message)].
Definition noBodyError (message : string) : JsValue :=
  errorPayload "NO_BODY" message.
Definition noPlayerID : JsValue :=
  errorPayload "NO_PLAYER_ID" "There wasn't a player ID provided".
Definition playerIDType : JsValue :=
  errorPayload "PLAYER_ID_TYPE" "The provided player ID wasn't a string".

(** The application with the constants it imports. *)
Definition application (this : Fields) (no_body_message : string)
  (matches_post : string -> Incoming -> bool) (i : Incoming) : World :=
  serve this isValid isNotValid (noBodyError no_body_message) noPlayerID
    playerIDType matches_post i.

(** [v.errcode] *)
Definition errcode (v : JsValue) : JsValue :=
  match v with
  | JObject fields => lookup_field "errcode" fields
  | _ => JUndefined
  end.

End WebServer.

(** * Properties *)

(** ** Strings *)

Lemma truthy_true (s : string) : truthy s = true <-> s <> "".
Proof. destruct s; simpl; split; congruence. Qed.

Lemma split_nonempty (sep : ascii) (s : string) : split sep s <> [].
Proof.
  induction s as [|c rest IH]; simpl; [discriminate|].
  destruct (Ascii.eqb c sep); [discriminate|].
  destruct (split sep rest); discriminate.
Qed.

(** Without the separator the string is its own single segment. *)
Lemma split_no_sep (sep : ascii) (s : string) :
  occurs sep s = false -> split sep s = [s].
Proof.
  induction s as [|c rest IH]; simpl; intros H; [reflexivity|].
  apply orb_false_iff in H as [Hc Hr].
  rewrite Hc, (IH Hr). reflexivity.
Qed.

(** A segment up to the first separator, then the segments of the rest. *)
Lemma split_app_sep (sep : ascii) (s rest : string) :
  occurs sep s = false ->
  split sep (s ++ String sep rest) = s :: split sep rest.
Proof.
  induction s as [|c s' IH]; simpl; intros H.
  - rewrite Ascii.eqb_refl. reflexivity.
  - apply orb_false_iff in H as [Hc Hr].
    rewrite Hc, (IH Hr). reflexivity.
Qed.

(** Splitting undoes joining segments that are free of the separator. *)
Lemma split_join (sep : ascii) (segments : list string) :
  segments <> [] ->
  Forall (fun s => occurs sep s = false) segments ->
  split sep (join sep segments) = segments.
Proof.
  induction segments as [|s rest IH]; intros Hne Hall; [congruence|].
  inversion Hall as [|x l Hs Hrest]; subst.
  destruct rest as [|s' rest'].
  - simpl. apply split_no_sep. assumption.
  - change (join sep (s :: s' :: rest'))
      with (s ++ String sep (join sep (s' :: rest')))%string.
    rewrite (split_app_sep sep s _ Hs), IH; [reflexivity | discriminate | assumption].
Qed.

Example split_repeated_space : split space "a  b" = ["a"; ""; "b"].
Proof. reflexivity. Qed.

Example split_trailing_space : split space "Bearer " = ["Bearer"; ""].
Proof. reflexivity. Qed.

Example split_uuid :
  split dash "6ba7b810-9dad-11d1-80b4-00c04fd430c8"
  = ["6ba7b810"; "9dad"; "11d1"; "80b4"; "00c04fd430c8"].
Proof. reflexivity. Qed.

(** One segment exactly when the separator never occurs. *)
Lemma split_length_one (sep : ascii) (s : string) :
  Nat.eqb (length (split sep s)) 1 = negb (occurs sep s).
Proof.
  induction s as [|c rest IH]; simpl; [reflexivity|].
  destruct (Ascii.eqb c sep); simpl.
  - pose proof (split_nonempty sep rest) as Hne.
    destruct (split sep rest); [congruence | reflexivity].
  - rewrite <- IH.
    pose proof (split_nonempty sep rest) as Hne.
    destruct (split sep rest); [congruence | reflexivity].
Qed.

(** ** Lists of rows *)

Lemma find_app_miss {A} (p : A -> bool) (l l' : list A) :
  find p l = None -> find p (l ++ l') = find p l'.
Proof.
  induction l as [|a l IH]; simpl; intros H; [reflexivity|].
  destruct (p a); [discriminate | auto].
Qed.

Lemma find_weaken {A} (p q : A -> bool) (l : list A) :
  (forall a, q a = true -> p a = true) ->
  find p l = None -> find q l = None.
Proof.
  intros Hpq. induction l as [|a l IH]; simpl; intros H; [reflexivity|].
  destruct (p a) eqn:Hp; [discriminate|].
  destruct (q a) eqn:Hq; [rewrite (Hpq a Hq) in Hp; discriminate | auto].
Qed.

Lemma existsb_find_none {A} (p : A -> bool) (l : list A) :
  find p l = None -> existsb p l = false.
Proof.
  induction l as [|a l IH]; simpl; intros H; [reflexivity|].
  destruct (p a); [discriminate | auto].
Qed.

Lemma NoDup_snoc {A} (l : list A) (x : A) :
  NoDup l -> ~ In x l -> NoDup (l ++ [x]).
Proof.
  induction l as [|a l IH]; simpl; intros Hnd Hx.
  - constructor; [tauto | constructor].
  - inversion Hnd; subst. constructor.
    + rewrite in_app_iff. simpl. intuition congruence.
    + apply IH; tauto.
Qed.

(** ** [LinksTable] *)

Module LinksTableFacts.
Import LinksTable.

Lemma existsb_column (f : Row -> string) (x : string) (t : Table) :
  existsb (fun r => f r =? x) t = false -> ~ In x (map f t).
Proof.
  intros H Hin. apply in_map_iff in Hin as (r & E & Hr).
  assert (existsb (fun r => f r =? x) t = true).
  { apply existsb_exists. exists r. split; [assumption|].
    apply String.eqb_eq. assumption. }
  congruence.
Qed.

(** The schema's constraints hold of the fresh table and survive [link]. *)
Lemma init_wf : wf init.
Proof. split; constructor. Qed.

Lemma link_wf (d m : string) (t : Table) : wf t -> wf (snd (link d m t)).
Proof.
  intros [Hm Hd]. unfold link.
  destruct (get _ t) as [row|].
  - destruct (truthy (discord row) && truthy (minecraft row));
      [|destruct (truthy (discord row))]; split; assumption.
  - unfold insert.
    destruct (existsb (fun r => discord r =? d) t) eqn:Ed; [split; assumption|].
    destruct (existsb (fun r => minecraft r =? m) t) eqn:Em; [split; assumption|].
    simpl. split; rewrite map_app; simpl; apply NoDup_snoc; try assumption.
    + apply (existsb_column minecraft). assumption.
    + apply (existsb_column discord). assumption.
Qed.

(** A successful [link] found no row holding either identifier, and
    appended the requested pair. *)
Lemma link_returns (d m : string) (t : Table) :
  fst (link d m t) = Return tt ->
  get (fun r => (discord r =? d) || (minecraft r =? m)) t = None /\
  snd (link d m t) = t ++ [{| minecraft := m; discord := d |}].
Proof.
  unfold link. destruct (get _ t) as [row|] eqn:Hget.
  - destruct (truthy (discord row) && truthy (minecraft row));
      [|destruct (truthy (discord row))]; simpl; discriminate.
  - unfold insert.
    destruct (existsb (fun r => discord r =? d) t); [simpl; discriminate|].
    destruct (existsb (fun r => minecraft r =? m) t); [simpl; discriminate|].
    simpl. auto.
Qed.

(** With no colliding row the insertion meets no constraint: [link]
    returns. *)
Lemma link_free (d m : string) (t : Table) :
  get (fun r => (discord r =? d) || (minecraft r =? m)) t = None ->
  link d m t = (Return tt, t ++ [{| minecraft := m; discord := d |}]).
Proof.
  intros Hget. unfold link. rewrite Hget. unfold insert.
  assert (Hd : existsb (fun r => discord r =? d) t = false).
  { apply existsb_find_none. revert Hget. unfold get. apply find_weaken.
    intros a Ha. rewrite Ha. reflexivity. }
  assert (Hm : existsb (fun r => minecraft r =? m) t = false).
  { apply existsb_find_none. revert Hget. unfold get. apply find_weaken.
    intros a Ha. rewrite Ha. apply orb_true_r. }
  rewrite Hd, Hm. reflexivity.
Qed.

(** A failing [link] never writes. *)
Lemma link_throw_unchanged (d m : string) (t : Table) (e : JsError) :
  fst (link d m t) = Throw e -> snd (link d m t) = t.
Proof.
  unfold link. destruct (get _ t) as [row|].
  - destruct (truthy (discord row) && truthy (minecraft row));
      [|destruct (truthy (discord row))]; reflexivity.
  - unfold insert.
    destruct (existsb (fun r => discord r =? d) t); [reflexivity|].
    destruct (existsb (fun r => minecraft r =? m) t); [reflexivity|].
    simpl. discriminate.
Qed.

(** Whatever was requested, a colliding row with two non-empty columns
    is reported as [both]. *)
Lemma link_collision_both (d m : string) (t : Table) (row : Row) :
  get (fun r => (discord r =? d) || (minecraft r =? m)) t = Some row ->
  discord row <> "" -> minecraft row <> "" ->
  link d m t = (Throw (AlreadyLinkedError "both"), t).
Proof.
  intros Hget Hd Hm. unfold link. rewrite Hget.
  apply truthy_true in Hd. apply truthy_true in Hm.
  rewrite Hd, Hm. reflexivity.
Qed.

(** C1.  The table holds the link (d1, m1) and [link] is asked for
    (d1, m2).  The colliding row's discord column equals the requested
    Discord id and its minecraft column differs from the requested
    Minecraft id, so the comparison the interface describes gives
    [discord]; [link] raises [AlreadyLinkedError('both')]. *)
Theorem link_side_is_not_by_comparison :
  let row := {| minecraft := "m1"; discord := "d1" |} in
  get (fun r => (discord r =? "d1") || (minecraft r =? "m2")) [row] = Some row /\
  side_by_comparison "d1" "m2" row = "discord" /\
  fst (link "d1" "m2" [row]) = Throw (AlreadyLinkedError "both").
Proof. repeat split. Qed.

(** C7.  The Discord id d1 is linked to m1, the Minecraft id m2 occurs in
    no row, and [link] is asked for (d1, m2): the table is left as it
    was, and the error raised carries the side [both], not [discord]. *)
Theorem link_discord_taken_reports_both :
  let t := [{| minecraft := "m1"; discord := "d1" |}] in
  get (fun r => minecraft r =? "m2") t = None /\
  link "d1" "m2" t = (Throw (AlreadyLinkedError "both"), t) /\
  AlreadyLinkedError "both" <> AlreadyLinkedError "discord".
Proof. repeat split. discriminate. Qed.

(** C3, as stated, fails on an empty identifier: linking the empty
    Discord id to m1 succeeds on the empty table, after which the lookup
    by m1 answers [null] and not the Discord id that was linked. *)
Lemma link_then_lookup_empty_id :
  fst (link "" "m1" init) = Return tt /\
  getDiscordID "m1" (snd (link "" "m1" init)) <> Return (Some "").
Proof. split; [reflexivity | simpl; discriminate]. Qed.

(** C3 (amended).  For non-empty identifiers, once [link] has returned,
    the lookup by the Minecraft id yields the Discord id and the lookup
    by the Discord id yields the Minecraft id. *)
Theorem link_then_lookup (d m : string) (t : Table) :
  d <> "" -> m <> "" ->
  fst (link d m t) = Return tt ->
  getDiscordID m (snd (link d m t)) = Return (Some d) /\
  getMcID d (snd (link d m t)) = Return m.
Proof.
  intros Hd Hm Hok.
  destruct (link_returns d m t Hok) as [Hget Hsnd]. rewrite Hsnd.
  apply truthy_true in Hd. apply truthy_true in Hm.
  unfold getDiscordID, getMcID, get. split.
  - rewrite find_app_miss.
    + simpl. rewrite String.eqb_refl. simpl. rewrite Hd. reflexivity.
    + revert Hget. unfold get. apply find_weaken.
      intros a Ha. rewrite Ha. apply orb_true_r.
  - rewrite find_app_miss.
    + simpl. rewrite String.eqb_refl. simpl. rewrite Hm. reflexivity.
    + revert Hget. unfold get. apply find_weaken.
      intros a Ha. rewrite Ha. reflexivity.
Qed.

(** C3 (amended) on a table that already holds another link. *)
Lemma link_then_lookup_witness :
  "d1" <> "" /\ "m1" <> "" /\
  fst (link "d1" "m1" [{| minecraft := "m0"; discord := "d0" |}]) = Return tt /\
  getDiscordID "m1"
    (snd (link "d1" "m1" [{| minecraft := "m0"; discord := "d0" |}]))
    = Return (Some "d1") /\
  getMcID "d1"
    (snd (link "d1" "m1" [{| minecraft := "m0"; discord := "d0" |}]))
    = Return "m1".
Proof.
  split; [discriminate|]. split; [discriminate|]. split; [reflexivity|].
  apply (link_then_lookup "d1" "m1" [{| minecraft := "m0"; discord := "d0" |}]);
    [discriminate | discriminate | reflexivity].
Defined.

End LinksTableFacts.

(** ** [AuthCodes] *)

Module AuthCodesFacts.
Import AuthCodes.

Lemma existsb_false_forall {A} (p : A -> bool) (l : list A) :
  existsb p l = false <-> forall a, In a l -> p a = false.
Proof.
  split.
  - intros H a Ha. destruct (p a) eqn:Hp; [|reflexivity].
    assert (existsb p l = true) by (apply existsb_exists; eauto). congruence.
  - intros H. destruct (existsb p l) eqn:E; [|reflexivity].
    apply existsb_exists in E as (a & Ha & Hp). rewrite (H a Ha) in Hp.
    discriminate.
Qed.

Section Upsert.
Variables code mc : string.

Local Abbreviation row := {| auth_code := code; mc_id := mc |}.
Local Abbreviation rewrite_row := (AuthCodes.rewrite_row code mc).

Lemma rewrite_row_hit (r : AuthCodeProfile) :
  mc_id r = mc -> rewrite_row r = row.
Proof.
  intros E. unfold AuthCodes.rewrite_row. rewrite E, String.eqb_refl. reflexivity.
Qed.

Lemma rewrite_row_miss (r : AuthCodeProfile) :
  mc_id r <> mc -> rewrite_row r = r.
Proof.
  intros E. unfold AuthCodes.rewrite_row. apply String.eqb_neq in E. rewrite E.
  reflexivity.
Qed.

Lemma rewrite_keeps_mc_id (t : Table) :
  map mc_id (map rewrite_row t) = map mc_id t.
Proof.
  induction t as [|a t IH]; simpl; [reflexivity|]. rewrite IH. f_equal.
  destruct (String.eqb_spec (mc_id a) mc) as [E|E].
  - rewrite (rewrite_row_hit a E). simpl. congruence.
  - rewrite (rewrite_row_miss a E). reflexivity.
Qed.

Lemma pending_rewrite_absent (t : Table) :
  ~ In mc (map mc_id t) ->
  pending_rows mc (map rewrite_row t) = [].
Proof.
  induction t as [|a t IH]; simpl; intros H; [reflexivity|].
  destruct (String.eqb_spec (mc_id a) mc) as [E|E]; [tauto|].
  rewrite (rewrite_row_miss a E). apply String.eqb_neq in E. rewrite E.
  apply IH. tauto.
Qed.

Lemma pending_rewrite_present (t : Table) :
  NoDup (map mc_id t) -> In mc (map mc_id t) ->
  pending_rows mc (map rewrite_row t) = [row].
Proof.
  induction t as [|a t IH]; simpl; intros Hnd Hin; [contradiction|].
  inversion Hnd as [|x l Hnotin Hnd']; subst.
  destruct (String.eqb_spec (mc_id a) mc) as [E|E].
  - rewrite (rewrite_row_hit a E). simpl. rewrite String.eqb_refl.
    rewrite E in Hnotin.
    fold (pending_rows mc (map rewrite_row t)).
    rewrite (pending_rewrite_absent t Hnotin). reflexivity.
  - rewrite (rewrite_row_miss a E).
    destruct (String.eqb_spec (mc_id a) mc) as [E'|_]; [contradiction|].
    apply IH; [assumption|]. destruct Hin; [contradiction | assumption].
Qed.

Lemma pending_append_absent (t : Table) :
  ~ In mc (map mc_id t) -> pending_rows mc (t ++ [row]) = [row].
Proof.
  intros H. unfold pending_rows. rewrite filter_app. simpl.
  rewrite String.eqb_refl.
  replace (filter (fun r => mc_id r =? mc) t) with (@nil AuthCodeProfile);
    [reflexivity|].
  symmetry. induction t as [|a t IH]; simpl in *; [reflexivity|].
  destruct (mc_id a =? mc) eqn:E.
  - apply String.eqb_eq in E. tauto.
  - apply IH. tauto.
Qed.

Lemma existsb_mc_id (t : Table) :
  existsb (fun r => mc_id r =? mc) t = true <-> In mc (map mc_id t).
Proof.
  rewrite existsb_exists, in_map_iff. split.
  - intros (r & Hr & E). apply String.eqb_eq in E. eauto.
  - intros (r & E & Hr). exists r. split; [assumption|].
    apply String.eqb_eq. assumption.
Qed.

(** The statement keeps [mc_id] unique. *)
Lemma upsert_mc_id_unique (t : Table) :
  NoDup (map mc_id t) -> NoDup (map mc_id (snd (upsert code mc t))).
Proof.
  intros Hnd. unfold upsert.
  destruct (existsb (fun r => (auth_code r =? code) && negb (mc_id r =? mc)) t);
    [assumption|].
  destruct (existsb (fun r => mc_id r =? mc) t) eqn:E; simpl.
  - rewrite rewrite_keeps_mc_id. assumption.
  - rewrite map_app. simpl.
    assert (Hnot : ~ In mc (map mc_id t)).
    { intros Hin. apply existsb_mc_id in Hin. congruence. }
    clear E. induction t as [|a t IH]; simpl in *.
    + constructor; [tauto | constructor].
    + inversion Hnd; subst. constructor.
      * rewrite in_app_iff. simpl. intuition congruence.
      * apply IH; tauto.
Qed.

Lemma rewrite_absent (t : Table) :
  ~ In mc (map mc_id t) -> map rewrite_row t = t.
Proof.
  induction t as [|a t IH]; simpl; intros H; [reflexivity|].
  rewrite rewrite_row_miss by tauto. rewrite IH by tauto. reflexivity.
Qed.

(** Rewriting the row of [mc] keeps [auth_code] unique when no other
    Minecraft id holds the code. *)
Lemma rewrite_auth_code_unique (t : Table) :
  NoDup (map mc_id t) -> NoDup (map auth_code t) ->
  (forall r, In r t -> auth_code r = code -> mc_id r = mc) ->
  NoDup (map auth_code (map rewrite_row t)).
Proof.
  induction t as [|a t IH]; simpl; intros Hmc Hcode Hfresh; [constructor|].
  inversion Hmc as [|x l Hmc1 Hmc2]; subst.
  inversion Hcode as [|x l Hcode1 Hcode2]; subst.
  destruct (String.eqb_spec (mc_id a) mc) as [E|E].
  - rewrite (rewrite_row_hit a E). rewrite E in Hmc1.
    rewrite (rewrite_absent t Hmc1). simpl. constructor; [|assumption].
    intros Hin. apply in_map_iff in Hin as (r & Hr & Hin).
    apply Hmc1. apply in_map_iff. exists r. split; [|assumption].
    apply Hfresh; [right|]; assumption.
  - rewrite (rewrite_row_miss a E). constructor.
    + intros Hin. apply in_map_iff in Hin as (r' & Hr' & Hin).
      apply in_map_iff in Hin as (r & Hr & Hin). subst r'.
      destruct (String.eqb_spec (mc_id r) mc) as [E'|E'].
      * rewrite (rewrite_row_hit r E') in Hr'. simpl in Hr'.
        apply E. apply Hfresh; [left; reflexivity | congruence].
      * rewrite (rewrite_row_miss r E') in Hr'.
        apply Hcode1. apply in_map_iff. exists r. split; assumption.
    + apply IH; try assumption. intros r Hr. apply Hfresh. right. assumption.
Qed.

(** The statement keeps both constraints of the schema. *)
Lemma upsert_wf (t : Table) : wf t -> wf (snd (upsert code mc t)).
Proof.
  intros [Hmc Hcode]. split; [apply upsert_mc_id_unique; assumption|].
  unfold upsert.
  destruct (existsb (fun r => (auth_code r =? code) && negb (mc_id r =? mc)) t)
    eqn:E0; [assumption|].
  assert (Hfresh : forall r, In r t -> auth_code r = code -> mc_id r = mc).
  { intros r Hr Hc. pose proof (proj1 (existsb_false_forall _ _) E0 r Hr) as H.
    simpl in H. apply String.eqb_eq in Hc. rewrite Hc in H. simpl in H.
    apply negb_false_iff in H. apply String.eqb_eq. assumption. }
  destruct (existsb (fun r => mc_id r =? mc) t) eqn:E; simpl.
  - apply rewrite_auth_code_unique; assumption.
  - rewrite map_app. simpl. apply NoDup_snoc; [assumption|].
    intros Hin. apply in_map_iff in Hin as (r & Hr & Hin).
    assert (Hmcin : In mc (map mc_id t)).
    { apply in_map_iff. exists r. split; [|assumption].
      apply Hfresh; assumption. }
    apply existsb_mc_id in Hmcin. congruence.
Qed.

(** Rows held for other Minecraft ids are not touched. *)
Lemma upsert_others (t : Table) (r : AuthCodeProfile) :
  In r (snd (upsert code mc t)) -> mc_id r <> mc -> In r t.
Proof.
  unfold upsert.
  destruct (existsb (fun r => (auth_code r =? code) && negb (mc_id r =? mc)) t);
    [tauto|].
  destruct (existsb (fun r => mc_id r =? mc) t); simpl.
  - intros Hin Hne. apply in_map_iff in Hin as (r0 & Hr0 & Hin0).
    destruct (String.eqb_spec (mc_id r0) mc) as [E|E].
    + rewrite (rewrite_row_hit r0 E) in Hr0. subst r. simpl in Hne. congruence.
    + rewrite (rewrite_row_miss r0 E) in Hr0. congruence.
  - rewrite in_app_iff. simpl. intros [H|[H|[]]] Hne; [assumption|].
    subst r. simpl in Hne. congruence.
Qed.

(** When no other Minecraft id holds the code, the statement returns
    the row and leaves it as the only one for [mc]. *)
Lemma upsert_fresh (t : Table) :
  NoDup (map mc_id t) ->
  (forall r, In r t -> auth_code r = code -> mc_id r = mc) ->
  fst (upsert code mc t) = Return row /\
  pending_rows mc (snd (upsert code mc t)) = [row].
Proof.
  intros Hnd Hfresh. unfold upsert.
  assert (E0 : existsb (fun r => (auth_code r =? code) && negb (mc_id r =? mc)) t
               = false).
  { apply existsb_false_forall. intros r Hr.
    destruct (auth_code r =? code) eqn:Ec; [|reflexivity].
    apply String.eqb_eq in Ec. rewrite (Hfresh r Hr Ec), String.eqb_refl.
    reflexivity. }
  rewrite E0.
  destruct (existsb (fun r => mc_id r =? mc) t) eqn:E; simpl.
  - split; [reflexivity|]. apply pending_rewrite_present; [assumption|].
    apply existsb_mc_id. assumption.
  - split; [reflexivity|]. apply pending_append_absent.
    intros Hin. apply existsb_mc_id in Hin. congruence.
Qed.

End Upsert.

(** C8, as stated, fails when the second call draws a code that another
    Minecraft id is holding: with B pending on code aaaaaaaa, a first call
    for A draws bbbbbbbb and a second call for A draws aaaaaaaa; the
    second statement is rejected by the [UNIQUE] constraint on
    [auth_code], and A's row still carries the first call's code. *)
Lemma assertAuthCode_twice_clash :
  let t0 := [{| auth_code := "aaaaaaaa"; mc_id := "B" |}] in
  let u1 := "bbbbbbbb-0000-1000-8000-000000000000" in
  let u2 := "aaaaaaaa-0000-1000-8000-000000000000" in
  let t1 := snd (assertAuthCode u1 "A" t0) in
  let t2 := snd (assertAuthCode u2 "A" t1) in
  ~ (pending_rows "A" t2
     = [{| auth_code := generateAuthCodeString u2; mc_id := "A" |}]).
Proof. simpl. discriminate. Qed.

(** C8 (amended).  On a table meeting the schema's constraints, when the
    code drawn by the second of two calls for the same Minecraft id is not
    held by another Minecraft id, the second call returns its row and the
    table then holds exactly one row for that id, carrying the second
    call's code. *)
Theorem assertAuthCode_twice (u1 u2 mc : string) (t : Table) :
  wf t ->
  (forall r, In r t -> auth_code r = generateAuthCodeString u2 -> mc_id r = mc) ->
  let t1 := snd (assertAuthCode u1 mc t) in
  let row2 := {| auth_code := generateAuthCodeString u2; mc_id := mc |} in
  fst (assertAuthCode u2 mc t1) = Return row2 /\
  pending_rows mc (snd (assertAuthCode u2 mc t1)) = [row2].
Proof.
  intros [Hmc _] Hfresh t1 row2. unfold assertAuthCode.
  apply upsert_fresh.
  - apply upsert_mc_id_unique. assumption.
  - intros r Hr Hcode.
    destruct (String.eqb_spec (mc_id r) mc) as [E|E]; [assumption|].
    apply Hfresh; [|assumption].
    apply (upsert_others (generateAuthCodeString u1) mc); assumption.
Qed.

(** C8 (amended) with B pending and two fresh codes drawn for A. *)
Lemma assertAuthCode_twice_witness :
  let t0 := [{| auth_code := "aaaaaaaa"; mc_id := "B" |}] in
  let u1 := "bbbbbbbb-0000-1000-8000-000000000000" in
  let u2 := "cccccccc-0000-1000-8000-000000000000" in
  wf t0 /\
  (forall r, In r t0 -> auth_code r = generateAuthCodeString u2 -> mc_id r = "A") /\
  fst (assertAuthCode u2 "A" (snd (assertAuthCode u1 "A" t0)))
    = Return {| auth_code := "cccccccc"; mc_id := "A" |} /\
  pending_rows "A" (snd (assertAuthCode u2 "A" (snd (assertAuthCode u1 "A" t0))))
    = [{| auth_code := "cccccccc"; mc_id := "A" |}].
Proof.
  intros t0 u1 u2.
  assert (Hwf : wf t0).
  { split; simpl; (constructor; [simpl; tauto | constructor]). }
  assert (Hfresh : forall r, In r t0 ->
            auth_code r = generateAuthCodeString u2 -> mc_id r = "A").
  { intros r [Hr|[]] Hc. subst r. simpl in Hc. discriminate. }
  split; [exact Hwf|]. split; [exact Hfresh|].
  exact (assertAuthCode_twice u1 u2 "A" t0 Hwf Hfresh).
Defined.

End AuthCodesFacts.

(** ** [WebServer] *)

Module WebServerFacts.
Import WebServer.
Local Open Scope js_scope.

Section Stages.

Variable this : Fields.
Variables isValid isNotValid : JsValue.
Variables noBodyError noPlayerID playerIDType : JsValue.
Variable matches_post : string -> Incoming -> bool.

Local Abbreviation checkAuth := (WebServer.checkAuth this).
Local Abbreviation validateBody :=
  (WebServer.validateBody noBodyError noPlayerID playerIDType).
Local Abbreviation isValidPlayer := (WebServer.isValidPlayer this isValid isNotValid).
Local Abbreviation run := (WebServer.run).
Local Abbreviation start :=
  (WebServer.start this isValid isNotValid noBodyError noPlayerID playerIDType
     matches_post).
Local Abbreviation serve :=
  (WebServer.serve this isValid isNotValid noBodyError noPlayerID playerIDType
     matches_post).

(** Rejecting with a status and an empty body. *)
Lemma reject_eq (code : nat) (w : World) :
  finished (res w) = false ->
  (res_status code ;; res_end) w = (Return tt, respond code (payload (res w)) w).
Proof.
  intros Hf. unfold bind, res_status, res_end, respond, with_res. simpl.
  rewrite Hf. reflexivity.
Qed.

(** Sending a payload with a status. *)
Lemma send_eq (code : nat) (v : JsValue) (w : World) :
  finished (res w) = false ->
  (res_status code ;; res_send v ;; res_end) w = (Return tt, respond code (Some v) w).
Proof.
  intros Hf. unfold bind, res_status, res_send, res_end, respond, with_res. simpl.
  rewrite Hf. reflexivity.
Qed.

(** [checkAuth] by the shape of the header. *)
Lemma checkAuth_eq (next : M unit) (w : World) :
  checkAuth next w =
  match authorization (incoming (req w)) with
  | None => (res_status 203 ;; res_end) w
  | Some h =>
      if occurs space h then
        if loose_eq (nth_error (split space h) 1) (token this) then next w
        else (res_status 401 ;; res_end) w
      else (res_status 203 ;; res_end) w
  end.
Proof.
  unfold WebServer.checkAuth. unfold bind at 1. unfold req_header_Authorization.
  destruct (authorization (incoming (req w))) as [h|]; [|reflexivity].
  cbn [falsy]. destruct (truthy h) eqn:Ht; cbn [negb].
  - rewrite split_length_one.
    destruct (occurs space h); cbn [negb]; [|reflexivity].
    destruct (loose_eq (nth_error (split space h) 1) (token this)); reflexivity.
  - destruct h; [reflexivity | discriminate].
Qed.


(** [validateBody] by the shape of the body, on a response not yet out. *)
Lemma validateBody_eq (next : M unit) (w : World) :
  finished (res w) = false ->
  validateBody next w =
  if loose_undefined (body (req w)) then
    (Throw (TypeError "Cannot read property 'player_id' of undefined"),
     respond 400 (Some noBodyError) w)
  else
    let p := own_player_id (body (req w)) in
    let w' := with_header "Content-Type" "application/json" w in
    if loose_undefined p then (Return tt, respond 400 (Some noPlayerID) w')
    else if negb (typeof p =? "string")%string then
      (Return tt, respond 400 (Some playerIDType) w')
    else next (attach_player_id p w').
Proof.
  intros Hf. unfold WebServer.validateBody. unfold bind at 1. unfold req_body.
  unfold bind at 1.
  destruct (loose_undefined (body (req w))) eqn:Hb.
  - rewrite (send_eq 400 noBodyError w Hf).
    unfold bind at 1. unfold get_player_id. rewrite Hb. reflexivity.
  - unfold ret at 1. unfold bind at 1. unfold get_player_id. rewrite Hb.
    unfold ret at 1. unfold bind at 1. unfold res_setHeader. rewrite Hf.
    fold (with_header "Content-Type" "application/json" w).
    assert (Hf' : finished (res (with_header "Content-Type" "application/json" w))
                  = false) by exact Hf.
    cbv zeta.
    destruct (loose_undefined (own_player_id (body (req w)))).
    + apply (send_eq 400 noPlayerID _ Hf').
    + destruct (negb (typeof (own_player_id (body (req w))) =? "string")%string).
      * apply (send_eq 400 playerIDType _ Hf').
      * reflexivity.
Qed.

Lemma isValidPlayer_eq (w : World) :
  finished (res w) = false ->
  isValidPlayer w = (Return tt, verdict this isValid isNotValid w).
Proof.
  intros Hf. unfold WebServer.isValidPlayer, WebServer.verdict.
  unfold bind at 1. unfold req_player_id. unfold try_catch.
  unfold bind at 1. unfold db_getDiscordID at 1. cbv zeta.
  fold (logged [DbGetDiscordID (player_id (req w))] w).
  set (w1 := logged [DbGetDiscordID (player_id (req w))] w).
  assert (Hf1 : finished (res w1) = false) by exact Hf.
  destruct (getDiscordID (db this) (player_id (req w))) as [d|e].
  - unfold bind at 1. unfold discord_isTierThree at 1.
    fold (logged [IsTierThree d] w1).
    set (w2 := logged [IsTierThree d] w1).
    assert (Hf2 : finished (res w2) = false) by exact Hf.
    destruct (isTierThree (discord this) d) as [[|]|e].
    + rewrite (send_eq 200 isValid w2 Hf2). reflexivity.
    + rewrite (send_eq 200 isNotValid w2 Hf2). reflexivity.
    + destruct (instanceof_NoDiscordAccError e).
      * apply (send_eq 200 isNotValid w2 Hf2).
      * apply (send_eq 500 isNotValid w2 Hf2).
  - destruct (instanceof_NoDiscordAccError e).
    + apply (send_eq 200 isNotValid w1 Hf1).
    + apply (send_eq 500 isNotValid w1 Hf1).
Qed.

(** The router always hands control back. *)
Lemma run_returns (stack : list Layer) (w : World) :
  fst (run stack w) = Return tt.
Proof.
  revert w. induction stack as [|l rest IH]; intros w; simpl; [reflexivity|].
  destruct (matches l (incoming (req w))); [|apply IH].
  unfold guarded, try_catch.
  destruct (handle l (run rest) w) as [[[]|e] w']; reflexivity.
Qed.

Lemma run_cons (l : Layer) (rest : list Layer) (w : World) :
  run (l :: rest) w =
  if matches l (incoming (req w)) then guarded (handle l (run rest)) w
  else run rest w.
Proof. reflexivity. Qed.

Lemma guarded_returns (h : M unit) (w : World) :
  fst (guarded h w) = Return tt.
Proof.
  unfold guarded, try_catch. destruct (h w) as [[[]|e] w']; reflexivity.
Qed.

Lemma run_pair (stack : list Layer) (w : World) :
  run stack w = (Return tt, snd (run stack w)).
Proof.
  pose proof (run_returns stack w) as H.
  destruct (run stack w) as [o w']. simpl in *. congruence.
Qed.

(** The validation stages, from the parsed body on. *)
Lemma validation_eq (w : World) :
  finished (res w) = false ->
  snd (guarded (validateBody (detached isValidPlayer)) w) =
  if loose_undefined (body (req w)) then respond 400 (Some noBodyError) w
  else
    let p := own_player_id (body (req w)) in
    let w' := with_header "Content-Type" "application/json" w in
    if loose_undefined p then respond 400 (Some noPlayerID) w'
    else if negb (typeof p =? "string")%string then
      respond 400 (Some playerIDType) w'
    else verdict this isValid isNotValid (attach_player_id p w').
Proof.
  intros Hf. unfold guarded, try_catch. rewrite (validateBody_eq _ w Hf).
  destruct (loose_undefined (body (req w))); [reflexivity|].
  cbv zeta.
  destruct (loose_undefined (own_player_id (body (req w)))); [reflexivity|].
  destruct (negb (typeof (own_player_id (body (req w))) =? "string")%string);
    [reflexivity|].
  unfold detached. rewrite isValidPlayer_eq; [reflexivity | exact Hf].
Qed.

(** The layers registered on [POST /isValidPlayer]. *)
Lemma routed_eq (i : Incoming) :
  snd (run (tl start) (initial i)) =
  if matches_post "/isValidPlayer" i then
    match json i with
    | Return b =>
        snd (guarded (validateBody (detached isValidPlayer))
               (attach_body b (initial i)))
    | Throw e => handed_over (Uncaught e) (initial i)
    end
  else handed_over NoRoute (initial i).
Proof.
  simpl. destruct (matches_post "/isValidPlayer" i) eqn:Hm; [|reflexivity].
  unfold guarded at 1. unfold try_catch, express_json. simpl.
  destruct (json i) as [b|e]; [|reflexivity].
  unfold bind at 1. unfold set_body. fold (attach_body b (initial i)).
  simpl. rewrite Hm.
  set (w := attach_body b (initial i)).
  set (inner := fun w0 : World =>
         if matches_post "/isValidPlayer" (incoming (req w0))
         then guarded (detached isValidPlayer) w0
         else finalhandler NoRoute w0).
  assert (Hinner : forall w0, incoming (req w0) = i -> finished (res w0) = false ->
            inner w0 = detached isValidPlayer w0).
  { intros w0 Hi Hf0. unfold inner. rewrite Hi, Hm. reflexivity. }
  assert (Hv : guarded (validateBody inner) w
               = guarded (validateBody (detached isValidPlayer)) w).
  { unfold guarded, try_catch.
    rewrite !validateBody_eq by reflexivity.
    destruct (loose_undefined (body (req w))); [reflexivity|]. cbv zeta.
    destruct (loose_undefined (own_player_id (body (req w)))); [reflexivity|].
    destruct (negb (typeof (own_player_id (body (req w))) =? "string")%string);
      [reflexivity|].
    rewrite Hinner; reflexivity. }
  rewrite Hv.
  pose proof (guarded_returns (validateBody (detached isValidPlayer)) w) as Hg.
  destruct (guarded (validateBody (detached isValidPlayer)) w) as [[[]|e] w1];
    [reflexivity | discriminate].
Qed.

(** One request, by the authorization header. *)
Lemma serve_eq (i : Incoming) :
  serve i =
  match authorization i with
  | None => respond 203 None (initial i)
  | Some h =>
      if occurs space h then
        if loose_eq (nth_error (split space h) 1) (token this) then
          snd (run (tl start) (initial i))
        else respond 401 None (initial i)
      else respond 203 None (initial i)
  end.
Proof.
  unfold WebServer.serve.
  change start with (use_root checkAuth :: tl start).
  rewrite run_cons. cbn [matches use_root handle].
  unfold guarded at 1. unfold try_catch. rewrite checkAuth_eq.
  change (authorization (incoming (req (initial i)))) with (authorization i).
  destruct (authorization i) as [h|].
  - destruct (occurs space h).
    + destruct (loose_eq (nth_error (split space h) 1) (token this)).
      * rewrite (run_pair (tl start) (initial i)). reflexivity.
      * rewrite reject_eq by reflexivity. reflexivity.
    + rewrite reject_eq by reflexivity. reflexivity.
  - rewrite reject_eq by reflexivity. reflexivity.
Qed.

Lemma loose_eq_true (o : option string) (expected : string) :
  loose_eq o expected = true <-> o = Some expected.
Proof.
  destruct o as [x|]; simpl.
  - rewrite String.eqb_eq. split; congruence.
  - split; discriminate.
Qed.

Lemma loose_eq_false (o : option string) (expected : string) :
  loose_eq o expected = false <-> o <> Some expected.
Proof.
  rewrite <- loose_eq_true. destruct (loose_eq o expected); split; congruence.
Qed.

(** C4.  The authorization stage is the first layer every request meets.
    A request without the header, or whose header holds no space, gets 203
    with an empty body; a header with a space whose second segment is not
    the configured token gets 401 with an empty body; in both cases nothing
    was looked up.  Only on a matching token is the request handed, as it
    came in, to the layers registered after [checkAuth]; a lookup is made
    for no other request. *)
Theorem authorization_first (i : Incoming) :
  (authorization i = None \/
   (exists h, authorization i = Some h /\ occurs space h = false) ->
   res (serve i) = reply 203 [] None /\ log (serve i) = []) /\
  (forall h, authorization i = Some h -> occurs space h = true ->
   nth_error (split space h) 1 <> Some (token this) ->
   res (serve i) = reply 401 [] None /\ log (serve i) = []) /\
  (forall h, authorization i = Some h -> occurs space h = true ->
   nth_error (split space h) 1 = Some (token this) ->
   serve i = snd (run (tl start) (initial i))) /\
  (log (serve i) <> [] ->
   exists h, authorization i = Some h /\
             nth_error (split space h) 1 = Some (token this)).
Proof.
  rewrite serve_eq. split; [|split; [|split]].
  - intros [H|(h & H & Hs)]; rewrite H; [|rewrite Hs]; split; reflexivity.
  - intros h H Hs Hseg. rewrite H, Hs. apply loose_eq_false in Hseg.
    rewrite Hseg. split; reflexivity.
  - intros h H Hs Hseg. rewrite H, Hs. apply loose_eq_true in Hseg.
    rewrite Hseg. reflexivity.
  - destruct (authorization i) as [h|];
      [|intros Hlog; exfalso; apply Hlog; reflexivity].
    destruct (occurs space h);
      [|intros Hlog; exfalso; apply Hlog; reflexivity].
    destruct (loose_eq (nth_error (split space h) 1) (token this)) eqn:E;
      [|intros Hlog; exfalso; apply Hlog; reflexivity].
    intros _. exists h. split; [reflexivity|]. apply loose_eq_true. exact E.
Qed.

(** C9.  On a header holding a space, [checkAuth] decides by the second
    space-separated segment alone.  So whatever the first segment (the
    scheme) is, and whatever segments follow the second, a header whose
    second segment is the configured token lets the request through. *)
Theorem checkAuth_scheme_blind (next : M unit) (w : World) (h : string) :
  authorization (incoming (req w)) = Some h -> occurs space h = true ->
  checkAuth next w =
    (if loose_eq (nth_error (split space h) 1) (token this) then next w
     else (res_status 401 ;; res_end) w) /\
  (forall (scheme : string) (more : list string),
     Forall (fun s => occurs space s = false) (scheme :: token this :: more) ->
     h = join space (scheme :: token this :: more) ->
     checkAuth next w = next w).
Proof.
  intros Hh Hs. rewrite checkAuth_eq, Hh, Hs. split; [reflexivity|].
  intros scheme more Hsegs Hshape.
  assert (Hseg : nth_error (split space h) 1 = Some (token this)).
  { rewrite Hshape, split_join; [reflexivity | discriminate | assumption]. }
  apply loose_eq_true in Hseg. rewrite Hseg. reflexivity.
Qed.

(** Every reply of the resolution stage carries one of the two imported
    constants, and [isValid] only when the role check answered [true]. *)
Lemma verdict_payload (w : World) :
  payload (res (verdict this isValid isNotValid w)) = Some isNotValid \/
  (payload (res (verdict this isValid isNotValid w)) = Some isValid /\
   exists d, getDiscordID (db this) (player_id (req w)) = Return d /\
             isTierThree (discord this) d = Return true).
Proof.
  unfold verdict.
  destruct (getDiscordID (db this) (player_id (req w))) as [d|e]; [|left; reflexivity].
  destruct (isTierThree (discord this) d) as [[|]|e] eqn:E;
    [right | left | left]; try reflexivity.
  split; [reflexivity|]. exists d. split; [reflexivity | exact E].
Qed.

Lemma verdict_req (w : World) : req (verdict this isValid isNotValid w) = req w.
Proof.
  unfold verdict.
  destruct (getDiscordID (db this) (player_id (req w))) as [d|e]; [|reflexivity].
  destruct (isTierThree (discord this) d) as [[|]|e]; reflexivity.
Qed.

Lemma verdict_lookup (w : World) (v : JsValue) :
  In (DbGetDiscordID v) (log (verdict this isValid isNotValid w)) ->
  In (DbGetDiscordID v) (log w) \/ v = player_id (req w).
Proof.
  unfold verdict.
  destruct (getDiscordID (db this) (player_id (req w))) as [d|e].
  - destruct (isTierThree (discord this) d) as [[|]|e]; simpl;
      rewrite !in_app_iff; simpl; intuition congruence.
  - simpl. rewrite in_app_iff. simpl. intuition congruence.
Qed.

Lemma typeof_string (v : JsValue) :
  (typeof v =? "string")%string = true -> exists s, v = JString s.
Proof. destruct v; simpl; try discriminate. eauto. Qed.

(** C10.  Whenever the resolution stage runs, that is, whenever the lookup
    by player id is made, the value it read from the request is a string,
    the one the body validation stage attached. *)
Theorem resolution_reads_string (i : Incoming) (v : JsValue) :
  In (DbGetDiscordID v) (log (serve i)) ->
  exists s, v = JString s /\ player_id (req (serve i)) = JString s.
Proof.
  rewrite serve_eq.
  destruct (authorization i) as [h|]; [|simpl; contradiction].
  destruct (occurs space h); [|simpl; contradiction].
  destruct (loose_eq (nth_error (split space h) 1) (token this));
    [|simpl; contradiction].
  rewrite routed_eq.
  destruct (matches_post "/isValidPlayer" i); [|simpl; contradiction].
  destruct (json i) as [b|e]; [|simpl; contradiction].
  rewrite validation_eq by reflexivity.
  destruct (loose_undefined (body (req (attach_body b (initial i)))));
    [simpl; contradiction|].
  cbv zeta.
  destruct (loose_undefined
              (own_player_id (body (req (attach_body b (initial i))))));
    [simpl; contradiction|].
  destruct (typeof (own_player_id (body (req (attach_body b (initial i)))))
            =? "string")%string eqn:Ht; [|simpl; contradiction].
  cbn [negb]. intros Hin.
  apply typeof_string in Ht as [s Hs]. rewrite Hs in *.
  apply verdict_lookup in Hin as [Hin|Hin]; [simpl in Hin; contradiction|].
  rewrite verdict_req. exists s. split; [exact Hin | reflexivity].
Qed.

(** The reply to an authorized, routed request whose body parsed. *)
Lemma serve_validation (i : Incoming) (h : string) (b : JsValue) :
  authorization i = Some h -> occurs space h = true ->
  nth_error (split space h) 1 = Some (token this) ->
  matches_post "/isValidPlayer" i = true ->
  json i = Return b ->
  serve i =
  snd (guarded (validateBody (detached isValidPlayer)) (attach_body b (initial i))).
Proof.
  intros Hh Hs Ht Hm Hj. rewrite serve_eq, Hh, Hs.
  apply loose_eq_true in Ht. rewrite Ht, routed_eq, Hm, Hj. reflexivity.
Qed.

End Stages.

(** C4 on four requests: no header, a header without a space, a wrong
    token, the configured token. *)
Lemma authorization_first_witness :
  let this := server_over [] (fun _ => Return false) "secret" in
  let app := application this "no body" literal_post in
  let request auth :=
    {| method := "POST"; path := "/isValidPlayer"; authorization := auth;
       json := Return (JObject [("player_id", JString "p1")]) |} in
  (res (app (request None)) = reply 203 [] None /\ log (app (request None)) = []) /\
  (res (app (request (Some "Bearer"))) = reply 203 [] None /\
   log (app (request (Some "Bearer"))) = []) /\
  (res (app (request (Some "Bearer wrong"))) = reply 401 [] None /\
   log (app (request (Some "Bearer wrong"))) = []) /\
  log (app (request (Some "Bearer secret"))) <> [].
Proof.
  intros this app request.
  pose proof (fun i => authorization_first this isValid isNotValid
                (noBodyError "no body") noPlayerID playerIDType literal_post i)
    as T.
  split; [|split; [|split]].
  - apply (proj1 (T (request None))). left. reflexivity.
  - apply (proj1 (T (request (Some "Bearer")))). right.
    exists "Bearer". split; reflexivity.
  - apply (proj1 (proj2 (T (request (Some "Bearer wrong")))) "Bearer wrong");
      [reflexivity | reflexivity | discriminate].
  - unfold app, application.
    rewrite (proj1 (proj2 (proj2 (T (request (Some "Bearer secret")))))
               "Bearer secret");
      [|reflexivity|reflexivity|reflexivity].
    discriminate.
Defined.

(** C9 on a header with an unknown scheme and two trailing segments. *)
Lemma checkAuth_scheme_blind_witness :
  let this := server_over [] (fun _ => Return false) "secret" in
  let w := initial {| method := "POST"; path := "/isValidPlayer";
                      authorization := Some "NotBearer secret trailing words";
                      json := Return JUndefined |} in
  authorization (incoming (req w)) = Some "NotBearer secret trailing words" /\
  occurs space "NotBearer secret trailing words" = true /\
  checkAuth this (ret tt) w = (Return tt, w).
Proof.
  intros this w. split; [reflexivity|]. split; [reflexivity|].
  apply (proj2 (checkAuth_scheme_blind this (ret tt) w
                  "NotBearer secret trailing words" eq_refl eq_refl)
           "NotBearer" ["trailing"; "words"]);
    [repeat constructor | reflexivity].
Defined.

(** C10 on a well-formed validation request. *)
Lemma resolution_reads_string_witness :
  let this := server_over [] (fun _ => Return false) "secret" in
  let i := validation_request "secret" (JObject [("player_id", JString "p1")]) in
  In (DbGetDiscordID (JString "p1")) (log (application this "no body" literal_post i)) /\
  exists s, JString "p1" = JString s /\
            player_id (req (application this "no body" literal_post i)) = JString s.
Proof.
  intros this i.
  assert (Hin : In (DbGetDiscordID (JString "p1"))
                  (log (application this "no body" literal_post i))).
  { left. reflexivity. }
  split; [exact Hin|].
  exact (resolution_reads_string this isValid isNotValid (noBodyError "no body")
           noPlayerID playerIDType literal_post i (JString "p1") Hin).
Defined.


Lemma not_NoDiscordAccError (e : JsError) :
  e <> NoDiscordAccError -> instanceof_NoDiscordAccError e = false.
Proof. destruct e; simpl; congruence. Qed.

(** C5.  An authorized request with a string [player_id] whose role check
    raises anything but [NoDiscordAccError] is answered 500 with the body
    [{valid: false}]. *)
Theorem oracle_failure_fails_closed
  (this : Fields) (no_body_message : string)
  (matches_post : string -> Incoming -> bool)
  (i : Incoming) (h uuid : string) (b d : JsValue) (e : JsError) :
  authorization i = Some h -> occurs space h = true ->
  nth_error (split space h) 1 = Some (token this) ->
  matches_post "/isValidPlayer" i = true ->
  json i = Return b ->
  loose_undefined b = false -> own_player_id b = JString uuid ->
  getDiscordID (db this) (JString uuid) = Return d ->
  isTierThree (discord this) d = Throw e ->
  e <> NoDiscordAccError ->
  res (application this no_body_message matches_post i)
  = reply 500 content_type_json (Some (JObject [("valid", JBool false)])).
Proof.
  intros Hh Hs Ht Hm Hj Hb Hp Hdb Horacle He. unfold application.
  rewrite (serve_validation _ _ _ _ _ _ _ i h b Hh Hs Ht Hm Hj).
  rewrite validation_eq by reflexivity.
  change (body (req (attach_body b (initial i)))) with b.
  rewrite Hb. cbv zeta. rewrite Hp. cbn [loose_undefined typeof].
  cbn [String.eqb Ascii.eqb Bool.eqb negb].
  unfold verdict. cbn [attach_player_id with_req req player_id].
  rewrite Hdb, Horacle, (not_NoDiscordAccError e He). reflexivity.
Qed.

(** C5 on a linked player whose role check fails with a network error. *)
Lemma oracle_failure_fails_closed_witness :
  let this := server_over [{| LinksTable.minecraft := "p1"; LinksTable.discord := "d1" |}]
                (fun _ => Throw (OtherError "socket hang up")) "secret" in
  let b := JObject [("player_id", JString "p1")] in
  let i := validation_request "secret" b in
  (authorization i = Some "Bearer secret" /\ occurs space "Bearer secret" = true /\
   nth_error (split space "Bearer secret") 1 = Some (token this) /\
   literal_post "/isValidPlayer" i = true /\
   json i = Return b /\
   loose_undefined b = false /\ own_player_id b = JString "p1" /\
   getDiscordID (db this) (JString "p1") = Return (JString "d1") /\
   isTierThree (discord this) (JString "d1") = Throw (OtherError "socket hang up") /\
   OtherError "socket hang up" <> NoDiscordAccError) /\
  res (application this "no body" literal_post i)
  = reply 500 content_type_json (Some (JObject [("valid", JBool false)])).
Proof.
  intros this b i.
  split; [repeat split; discriminate|].
  apply (oracle_failure_fails_closed this "no body" literal_post i
           "Bearer secret" "p1" b (JString "d1") (OtherError "socket hang up"));
    try reflexivity.
  discriminate.
Defined.


(** C6, as stated, fails on a body whose [player_id] is [null]: the field
    is present and its value is not of string type, yet the reply carries
    [NO_PLAYER_ID], not [PLAYER_ID_TYPE]. *)
Lemma null_player_id_reply :
  let this := server_over [] (fun _ => Return false) "secret" in
  let fields := [("player_id", JNull)] in
  let r := res (application this "no body" literal_post
                  (validation_request "secret" (JObject fields))) in
  In "player_id" (map fst fields) /\
  typeof (lookup_field "player_id" fields) <> "string" /\
  statusCode r = 400 /\
  option_map errcode (payload r) = Some (JString "NO_PLAYER_ID") /\
  option_map errcode (payload r) <> Some (JString "PLAYER_ID_TYPE").
Proof.
  simpl. split; [tauto|]. repeat split; discriminate.
Qed.

(** C6 (amended).  For an authorized request routed to [/isValidPlayer]
    whose body parsed to [b]: a missing ([undefined] or [null]) body is
    answered 400 [NO_BODY]; a body whose [player_id] is absent or [null] is
    answered 400 [NO_PLAYER_ID]; a [player_id] that is neither absent, [null]
    nor a string is answered 400 [PLAYER_ID_TYPE]; in these three cases
    nothing is looked up.  A string [player_id] is attached to the request,
    and the request goes on to [isValidPlayer]. *)
Theorem body_validation
  (this : Fields) (no_body_message : string)
  (matches_post : string -> Incoming -> bool)
  (i : Incoming) (h : string) (b : JsValue) :
  authorization i = Some h -> occurs space h = true ->
  nth_error (split space h) 1 = Some (token this) ->
  matches_post "/isValidPlayer" i = true ->
  json i = Return b ->
  let w := application this no_body_message matches_post i in
  (loose_undefined b = true ->
   res w = reply 400 [] (Some (noBodyError no_body_message)) /\ log w = []) /\
  (loose_undefined b = false -> loose_undefined (own_player_id b) = true ->
   res w = reply 400 content_type_json (Some noPlayerID) /\ log w = []) /\
  (loose_undefined b = false -> loose_undefined (own_player_id b) = false ->
   typeof (own_player_id b) <> "string" ->
   res w = reply 400 content_type_json (Some playerIDType) /\ log w = []) /\
  (forall s, loose_undefined b = false -> own_player_id b = JString s ->
   w = snd (isValidPlayer this isValid isNotValid
              (attach_player_id (JString s)
                 (with_header "Content-Type" "application/json"
                    (attach_body b (initial i)))))).
Proof.
  intros Hh Hs Ht Hm Hj w. unfold w, application.
  rewrite (serve_validation _ _ _ _ _ _ _ i h b Hh Hs Ht Hm Hj).
  rewrite validation_eq by reflexivity.
  change (body (req (attach_body b (initial i)))) with b. cbv zeta.
  split; [|split; [|split]].
  - intros Hb. rewrite Hb. split; reflexivity.
  - intros Hb Hp. rewrite Hb, Hp. split; reflexivity.
  - intros Hb Hp Hty. rewrite Hb, Hp.
    apply String.eqb_neq in Hty. rewrite Hty. split; reflexivity.
  - intros s Hb Hp. rewrite Hb, Hp.
    rewrite isValidPlayer_eq by reflexivity. reflexivity.
Qed.

(** C6 (amended) on four bodies: none, no [player_id], a number, a string. *)
Lemma body_validation_witness :
  let this := server_over [] (fun _ => Return false) "secret" in
  let app := application this "no body" literal_post in
  let h := "Bearer secret" in
  (occurs space h = true /\ nth_error (split space h) 1 = Some (token this)) /\
  (res (app (validation_request "secret" JUndefined))
   = reply 400 [] (Some (noBodyError "no body"))) /\
  (res (app (validation_request "secret" (JObject [])))
   = reply 400 content_type_json (Some noPlayerID)) /\
  (res (app (validation_request "secret" (JObject [("player_id", JNumber 123)])))
   = reply 400 content_type_json (Some playerIDType)) /\
  (player_id (req (app (validation_request "secret"
                          (JObject [("player_id", JString "p1")]))))
   = JString "p1").
Proof.
  intros this app h.
  pose proof (fun b => body_validation this "no body" literal_post
                (validation_request "secret" b) h b
                eq_refl eq_refl eq_refl eq_refl eq_refl) as T.
  split; [split; reflexivity|]. split; [|split; [|split]].
  - apply (proj1 (T JUndefined)). reflexivity.
  - apply (proj1 (proj2 (T (JObject [])))); reflexivity.
  - apply (proj1 (proj2 (proj2 (T (JObject [("player_id", JNumber 123)])))));
      [reflexivity | reflexivity | discriminate].
  - unfold app.
    rewrite (proj2 (proj2 (proj2 (T (JObject [("player_id", JString "p1")]))))
               "p1" eq_refl eq_refl).
    reflexivity.
Defined.

(** C2.  One table, one role check that knows no user, and two requests:
    one for a player without a link, one for a linked player.  Whatever the
    constants imported from [./responses] are, both replies are 200 with the
    one payload [isNotValid]: they do not carry the reason [no_link] in the
    first case and [no_role] in the second. *)
Theorem no_link_and_no_role_replies_coincide
  (isValid isNotValid noBodyError noPlayerID playerIDType : JsValue) :
  let t := [{| LinksTable.minecraft := "linked"; LinksTable.discord := "d1" |}] in
  let this := server_over t (fun _ => Throw NoDiscordAccError) "secret" in
  let app := serve this isValid isNotValid noBodyError noPlayerID playerIDType
               literal_post in
  let ask uuid := validation_request "secret" (JObject [("player_id", JString uuid)]) in
  let negative why := JObject [("valid", JBool false); ("reason", JString why)] in
  LinksTable.getDiscordID "unlinked" t = Return None /\
  LinksTable.getDiscordID "linked" t = Return (Some "d1") /\
  res (app (ask "unlinked")) = reply 200 content_type_json (Some isNotValid) /\
  res (app (ask "linked")) = reply 200 content_type_json (Some isNotValid) /\
  ~ (payload (res (app (ask "unlinked"))) = Some (negative "no_link") /\
     payload (res (app (ask "linked"))) = Some (negative "no_role")).
Proof.
  cbv zeta. split; [reflexivity|]. split; [reflexivity|].
  split; [reflexivity|]. split; [reflexivity|].
  intros [H1 H2]. cbn in H1, H2. congruence.
Qed.

End WebServerFacts.

(** * Further properties *)

(** ** Searching and filtering rows *)

Lemma find_none_iff {A} (p : A -> bool) (l : list A) :
  find p l = None <-> forall a, In a l -> p a = false.
Proof.
  induction l as [|x l IH]; simpl.
  - split; [intros _ a [] | reflexivity].
  - destruct (p x) eqn:Hx.
    + split; [discriminate|]. intros H. rewrite (H x) in Hx by (left; reflexivity).
      discriminate.
    + rewrite IH. split.
      * intros H a [E|Ha]; [subst; assumption | auto].
      * intros H a Ha. apply H. right. assumption.
Qed.

Lemma column_absent {A} (f : A -> string) (x : string) (l : list A) :
  (forall a, In a l -> (f a =? x) = false) <-> ~ In x (map f l).
Proof.
  split.
  - intros H Hin. apply in_map_iff in Hin as (a & E & Ha).
    specialize (H a Ha). apply String.eqb_neq in H. contradiction.
  - intros H a Ha. apply String.eqb_neq. intros E. apply H.
    apply in_map_iff. exists a. split; assumption.
Qed.

(** In a column without duplicates a key finds the row that carries it. *)
Lemma find_unique {A} (f : A -> string) (l : list A) (r : A) :
  NoDup (map f l) -> In r l -> find (fun a => f a =? f r) l = Some r.
Proof.
  induction l as [|x l IH]; simpl; intros Hnd Hin; [contradiction|].
  inversion Hnd as [|y ys Hx Hnd']; subst.
  destruct (String.eqb_spec (f x) (f r)) as [E|E].
  - destruct Hin as [Hin|Hin]; [congruence|].
    exfalso. apply Hx. rewrite E. apply in_map. assumption.
  - destruct Hin as [Hin|Hin]; [congruence | auto].
Qed.

Lemma filter_none {A} (p : A -> bool) (l : list A) :
  (forall a, In a l -> p a = false) ->
  filter p l = [] /\ filter (fun a => negb (p a)) l = l.
Proof.
  induction l as [|x l IH]; simpl; intros H; [split; reflexivity|].
  rewrite (H x) by (left; reflexivity). simpl.
  destruct IH as [IH1 IH2]; [intros a Ha; apply H; right; assumption|].
  rewrite IH2. split; [assumption | reflexivity].
Qed.

Lemma NoDup_map_filter {A} (f : A -> string) (p : A -> bool) (l : list A) :
  NoDup (map f l) -> NoDup (map f (filter p l)).
Proof.
  induction l as [|x l IH]; simpl; intros Hnd; [constructor|].
  inversion Hnd as [|y ys Hx Hnd']; subst.
  destruct (p x); simpl; [|auto].
  constructor; [|auto].
  intros Hin. apply Hx. apply in_map_iff in Hin as (a & E & Ha).
  apply filter_In in Ha as [Ha _]. apply in_map_iff. exists a. split; assumption.
Qed.

(** A search that skips every deleted row does not see the deletion. *)
Lemma find_filter_other {A} (q p : A -> bool) (l : list A) :
  (forall a, q a = true -> p a = false) ->
  find q (filter (fun a => negb (p a)) l) = find q l.
Proof.
  intros H. induction l as [|x l IH]; simpl; [reflexivity|].
  destruct (p x) eqn:Hp; simpl.
  - destruct (q x) eqn:Hq; [rewrite (H x Hq) in Hp; discriminate | assumption].
  - destruct (q x); [reflexivity | assumption].
Qed.

Lemma filter_length_pos {A} (p : A -> bool) (l : list A) :
  Nat.ltb 0 (length (filter p l)) = existsb p l.
Proof.
  induction l as [|x l IH]; simpl; [reflexivity|].
  destruct (p x); simpl; [reflexivity | assumption].
Qed.

Lemma existsb_column_iff {A} (f : A -> string) (x : string) (l : list A) :
  existsb (fun a => f a =? x) l = true <-> In x (map f l).
Proof.
  rewrite existsb_exists, in_map_iff. split.
  - intros (a & Ha & E). apply String.eqb_eq in E. eauto.
  - intros (a & E & Ha). exists a. split; [assumption|].
    apply String.eqb_eq. assumption.
Qed.

(** ** [LinksTable]: linking, unlinking and the lookups together *)

Module LinksTableMore.
Import LinksTable.

Lemma get_free (d m : string) (t : Table) :
  get (fun r => (discord r =? d) || (minecraft r =? m)) t = None <->
  ~ In d (map discord t) /\ ~ In m (map minecraft t).
Proof.
  unfold get. rewrite find_none_iff.
  rewrite <- (column_absent discord d t), <- (column_absent minecraft m t).
  split.
  - intros H. split; intros a Ha; specialize (H a Ha);
      apply orb_false_iff in H; tauto.
  - intros [Hd Hm] a Ha. rewrite (Hd a Ha), (Hm a Ha). reflexivity.
Qed.

Lemma or_empty_Some (a : string) : or_empty (Some a) = a.
Proof. destruct a; reflexivity. Qed.

(** X1.  [link] returns exactly when neither identifier occurs in any row
    of the table. *)
Theorem link_returns_iff_free (d m : string) (t : Table) :
  fst (link d m t) = Return tt <->
  ~ In d (map discord t) /\ ~ In m (map minecraft t).
Proof.
  rewrite <- get_free. split.
  - intros H. apply LinksTableFacts.link_returns in H. tauto.
  - intros H. rewrite (LinksTableFacts.link_free d m t H). reflexivity.
Qed.

(** X2.  When [link] fails, one of the two identifiers is in the table, the
    error is an [AlreadyLinkedError] (the insertion's own constraints are
    never hit), and the table is left as it was. *)
Theorem link_failure (d m : string) (t : Table) (e : JsError) :
  fst (link d m t) = Throw e ->
  (In d (map discord t) \/ In m (map minecraft t)) /\
  (e = AlreadyLinkedError "both" \/ e = AlreadyLinkedError "discord" \/
   e = AlreadyLinkedError "minecraft") /\
  snd (link d m t) = t.
Proof.
  intros H. split; [|split].
  - destruct (in_dec string_dec d (map discord t)) as [Hd|Hd]; [tauto|].
    destruct (in_dec string_dec m (map minecraft t)) as [Hm|Hm]; [tauto|].
    assert (Hok : fst (link d m t) = Return tt)
      by (apply link_returns_iff_free; tauto).
    congruence.
  - destruct (get (fun r => (discord r =? d) || (minecraft r =? m)) t)
      as [row|] eqn:Hget.
    + unfold link in H. rewrite Hget in H.
      destruct (truthy (discord row) && truthy (minecraft row));
        [|destruct (truthy (discord row))]; simpl in H;
        injection H as <-; tauto.
    + rewrite (LinksTableFacts.link_free d m t Hget) in H. discriminate.
  - apply (LinksTableFacts.link_throw_unchanged d m t e H).
Qed.

(** X2 on a table that holds the Discord id already. *)
Lemma link_failure_witness :
  let t := [{| minecraft := "m1"; discord := "d1" |}] in
  fst (link "d1" "m2" t) = Throw (AlreadyLinkedError "both") /\
  (In "d1" (map discord t) \/ In "m2" (map minecraft t)) /\
  snd (link "d1" "m2" t) = t.
Proof.
  intros t.
  assert (H : fst (link "d1" "m2" t) = Throw (AlreadyLinkedError "both"))
    by reflexivity.
  split; [exact H|].
  destruct (link_failure "d1" "m2" t _ H) as (Hin & _ & Hsame).
  split; assumption.
Defined.

Lemma delete_wf (p : Row -> bool) (t : Table) : wf t -> wf (snd (delete p t)).
Proof.
  intros [Hm Hd]. split; simpl; apply NoDup_map_filter; assumption.
Qed.

(** X3.  Linking and both ways of unlinking keep the constraints of the
    schema: no two rows share a Minecraft id, no two rows share a Discord
    id. *)
Theorem operations_keep_wf (d m : string) (t : Table) :
  wf t ->
  wf (snd (link d m t)) /\
  wf (snd (unlinkDiscordAcc d t)) /\
  wf (snd (unlinkMcAcc m t)).
Proof.
  intros H. split; [apply LinksTableFacts.link_wf; assumption|].
  split; apply delete_wf; assumption.
Qed.

(** X3 on a table of two links. *)
Lemma operations_keep_wf_witness :
  let t := [{| minecraft := "m1"; discord := "d1" |};
            {| minecraft := "m2"; discord := "d2" |}] in
  wf t /\
  wf (snd (link "d1" "m3" t)) /\
  wf (snd (unlinkDiscordAcc "d1" t)) /\
  wf (snd (unlinkMcAcc "m3" t)).
Proof.
  intros t.
  assert (Hwf : wf t).
  { split; simpl; repeat constructor; simpl; intuition discriminate. }
  split; [exact Hwf|]. exact (operations_keep_wf "d1" "m3" t Hwf).
Defined.

(** X4.  On a table meeting the schema the two lookups are inverse to one
    another: the Minecraft id [m] resolves to the Discord id [d] exactly
    when [d] resolves to [m] (an empty identifier is never returned). *)
Theorem lookups_inverse (d m : string) (t : Table) :
  wf t ->
  (getDiscordID m t = Return (Some d) /\ m <> "" <->
   getMcID d t = Return m /\ d <> "").
Proof.
  intros [Hm Hd]. unfold getDiscordID, getMcID, get. split.
  - intros [H Hne].
    destruct (find (fun r => minecraft r =? m) t) as [r|] eqn:Hf;
      simpl in H; [|discriminate].
    destruct (truthy (discord r)) eqn:Ht; [|discriminate].
    injection H as <-.
    apply find_some in Hf as [Hin E]. apply String.eqb_eq in E.
    rewrite (find_unique discord t r Hd Hin). simpl. rewrite E.
    apply truthy_true in Hne. rewrite Hne.
    split; [reflexivity | apply truthy_true; assumption].
  - intros [H Hne].
    destruct (find (fun r => discord r =? d) t) as [r|] eqn:Hf;
      simpl in H; [|discriminate].
    destruct (truthy (minecraft r)) eqn:Ht; [|discriminate].
    injection H as <-.
    apply find_some in Hf as [Hin E]. apply String.eqb_eq in E.
    rewrite (find_unique minecraft t r Hm Hin). simpl. rewrite E.
    apply truthy_true in Hne. rewrite Hne.
    split; [reflexivity | apply truthy_true; assumption].
Qed.

(** X4 on a table of two links. *)
Lemma lookups_inverse_witness :
  let t := [{| minecraft := "m1"; discord := "d1" |};
            {| minecraft := "m2"; discord := "d2" |}] in
  wf t /\
  (getDiscordID "m2" t = Return (Some "d2") /\ "m2" <> "") /\
  (getMcID "d2" t = Return "m2" /\ "d2" <> "").
Proof.
  intros t.
  assert (Hwf : wf t).
  { split; simpl; repeat constructor; simpl; intuition discriminate. }
  assert (Hleft : getDiscordID "m2" t = Return (Some "d2") /\ "m2" <> "")
    by (split; [reflexivity | discriminate]).
  split; [exact Hwf|]. split; [exact Hleft|].
  exact (proj1 (lookups_inverse "d2" "m2" t Hwf) Hleft).
Defined.

Lemma unlink_changes (f : Row -> string) (x : string) (t : Table) :
  Nat.ltb 0 (fst (delete (fun r => f r =? x) t)) = true <-> In x (map f t).
Proof.
  simpl. rewrite filter_length_pos. apply existsb_column_iff.
Qed.

Lemma deleted_absent (f : Row -> string) (x : string) (t : Table) :
  find (fun r => f r =? x) (snd (delete (fun r => f r =? x) t)) = None.
Proof.
  apply find_none_iff. intros a Ha. simpl in Ha.
  apply filter_In in Ha as [_ Ha]. apply negb_true_iff in Ha. assumption.
Qed.

Lemma delete_nothing (p : Row -> bool) (t : Table) :
  (forall a, In a t -> p a = false) -> delete p t = (0, t).
Proof.
  intros H. unfold delete. destruct (filter_none p t H) as [H1 H2].
  rewrite H1, H2. reflexivity.
Qed.

(** X5.  [unlinkDiscordAcc] answers [true] exactly when the Discord id was
    linked; afterwards the id resolves to no Minecraft account, and a second
    call answers [false] and deletes nothing. *)
Theorem unlinkDiscordAcc_effect (d : string) (t : Table) :
  (fst (unlinkDiscordAcc d t) = true <-> In d (map discord t)) /\
  getMcID d (snd (unlinkDiscordAcc d t)) = Throw NoMcAccError /\
  unlinkDiscordAcc d (snd (unlinkDiscordAcc d t))
  = (false, snd (unlinkDiscordAcc d t)).
Proof.
  split; [apply (unlink_changes discord)|].
  pose proof (deleted_absent discord d t) as Hgone.
  split.
  - unfold getMcID, get, unlinkDiscordAcc. cbn [snd]. rewrite Hgone. reflexivity.
  - change (snd (unlinkDiscordAcc d t))
      with (snd (delete (fun r => discord r =? d) t)).
    unfold unlinkDiscordAcc.
    rewrite (delete_nothing _ _ (proj1 (find_none_iff _ _) Hgone)).
    reflexivity.
Qed.

(** X6.  [unlinkMcAcc] answers [true] exactly when the Minecraft id was
    linked; afterwards the id resolves to [null], and a second call answers
    [false] and deletes nothing. *)
Theorem unlinkMcAcc_effect (m : string) (t : Table) :
  (fst (unlinkMcAcc m t) = true <-> In m (map minecraft t)) /\
  getDiscordID m (snd (unlinkMcAcc m t)) = Return None /\
  unlinkMcAcc m (snd (unlinkMcAcc m t)) = (false, snd (unlinkMcAcc m t)).
Proof.
  split; [apply (unlink_changes minecraft)|].
  pose proof (deleted_absent minecraft m t) as Hgone.
  split.
  - unfold getDiscordID, get, unlinkMcAcc. cbn [snd]. rewrite Hgone. reflexivity.
  - change (snd (unlinkMcAcc m t))
      with (snd (delete (fun r => minecraft r =? m) t)).
    unfold unlinkMcAcc.
    rewrite (delete_nothing _ _ (proj1 (find_none_iff _ _) Hgone)).
    reflexivity.
Qed.

(** X7.  Unlinking a Discord account leaves the other links readable from
    both sides: every other Discord id resolves as before, and a Minecraft
    id that resolved to another Discord id still does. *)
Theorem unlinkDiscordAcc_keeps_others (d d' m' : string) (t : Table) :
  d' <> d ->
  getMcID d' (snd (unlinkDiscordAcc d t)) = getMcID d' t /\
  (getDiscordID m' t = Return (Some d') ->
   getDiscordID m' (snd (unlinkDiscordAcc d t)) = Return (Some d')).
Proof.
  intros Hne. split.
  - unfold getMcID, get, unlinkDiscordAcc, delete. cbn [snd].
    rewrite find_filter_other; [reflexivity|].
    intros a Ha. apply String.eqb_eq in Ha. apply String.eqb_neq. congruence.
  - unfold getDiscordID, get, unlinkDiscordAcc, delete. cbn [snd].
    induction t as [|r t IH]; simpl; [discriminate|].
    destruct (minecraft r =? m') eqn:Hm.
    + simpl. destruct (truthy (discord r)) eqn:Ht; [|discriminate].
      intros H. injection H as H.
      assert (Hd : (discord r =? d) = false)
        by (apply String.eqb_neq; congruence).
      rewrite Hd. simpl. rewrite Hm. simpl. rewrite Ht, H. reflexivity.
    + intros H. destruct (discord r =? d); simpl; [auto|].
      rewrite Hm. auto.
Qed.

(** X7 on a table of two links. *)
Lemma unlinkDiscordAcc_keeps_others_witness :
  let t := [{| minecraft := "m1"; discord := "d1" |};
            {| minecraft := "m2"; discord := "d2" |}] in
  "d2" <> "d1" /\
  getMcID "d2" (snd (unlinkDiscordAcc "d1" t)) = Return "m2" /\
  getDiscordID "m2" (snd (unlinkDiscordAcc "d1" t)) = Return (Some "d2").
Proof.
  intros t.
  assert (Hne : "d2" <> "d1") by discriminate.
  destruct (unlinkDiscordAcc_keeps_others "d1" "d2" "m2" t Hne) as [H1 H2].
  split; [exact Hne|]. split; [exact H1 | exact (H2 eq_refl)].
Defined.

(** X8.  Unlinking, by either identifier, a pair that [link] has just
    stored answers [true] and gives back the table [link] started from. *)
Theorem link_then_unlink (d m : string) (t : Table) :
  fst (link d m t) = Return tt ->
  unlinkDiscordAcc d (snd (link d m t)) = (true, t) /\
  unlinkMcAcc m (snd (link d m t)) = (true, t).
Proof.
  intros H. apply LinksTableFacts.link_returns in H as [Hget Hsnd].
  rewrite Hsnd. apply get_free in Hget as [Hd Hm].
  destruct (filter_none _ _ (proj2 (column_absent discord d t) Hd)) as [Hd1 Hd2].
  destruct (filter_none _ _ (proj2 (column_absent minecraft m t) Hm)) as [Hm1 Hm2].
  unfold unlinkDiscordAcc, unlinkMcAcc, delete. cbn [fst snd].
  rewrite !filter_app, Hd1, Hd2, Hm1, Hm2. simpl.
  rewrite !String.eqb_refl. simpl. rewrite !app_nil_r. split; reflexivity.
Qed.

(** X8 on a table that already holds another link. *)
Lemma link_then_unlink_witness :
  let t := [{| minecraft := "m0"; discord := "d0" |}] in
  fst (link "d1" "m1" t) = Return tt /\
  unlinkDiscordAcc "d1" (snd (link "d1" "m1" t)) = (true, t) /\
  unlinkMcAcc "m1" (snd (link "d1" "m1" t)) = (true, t).
Proof.
  intros t. split; [reflexivity|].
  exact (link_then_unlink "d1" "m1" t eq_refl).
Defined.

Lemma same_key_same_row {A} (f : A -> string) (l : list A) (a b : A) :
  NoDup (map f l) -> In a l -> In b l -> f a = f b -> a = b.
Proof.
  intros Hnd Ha Hb E.
  pose proof (find_unique f l a Hnd Ha) as H1.
  pose proof (find_unique f l b Hnd Hb) as H2.
  rewrite E in H1. congruence.
Qed.

(** X9.  On a table meeting the schema, unlinking a stored pair by either
    identifier frees both: the same pair can be linked again at once. *)
Theorem unlink_then_link (d m : string) (t : Table) :
  wf t -> In {| minecraft := m; discord := d |} t ->
  fst (link d m (snd (unlinkDiscordAcc d t))) = Return tt /\
  fst (link d m (snd (unlinkMcAcc m t))) = Return tt.
Proof.
  intros [Hm Hd] Hin.
  split; apply link_returns_iff_free; unfold unlinkDiscordAcc, unlinkMcAcc, delete;
    cbn [snd]; split; intros H; apply in_map_iff in H as (r & E & Hr);
    apply filter_In in Hr as [Hr Hp]; apply negb_true_iff in Hp;
    apply String.eqb_neq in Hp.
  - congruence.
  - apply Hp.
    rewrite (same_key_same_row minecraft t r _ Hm Hr Hin E). reflexivity.
  - apply Hp.
    rewrite (same_key_same_row discord t r _ Hd Hr Hin E). reflexivity.
  - congruence.
Qed.

(** X9 on a table of two links. *)
Lemma unlink_then_link_witness :
  let t := [{| minecraft := "m1"; discord := "d1" |};
            {| minecraft := "m2"; discord := "d2" |}] in
  wf t /\ In {| minecraft := "m1"; discord := "d1" |} t /\
  fst (link "d1" "m1" (snd (unlinkDiscordAcc "d1" t))) = Return tt /\
  fst (link "d1" "m1" (snd (unlinkMcAcc "m1" t))) = Return tt.
Proof.
  intros t.
  assert (Hwf : wf t).
  { split; simpl; repeat constructor; simpl; intuition discriminate. }
  assert (Hin : In {| minecraft := "m1"; discord := "d1" |} t)
    by (left; reflexivity).
  split; [exact Hwf|]. split; [exact Hin|].
  exact (unlink_then_link "d1" "m1" t Hwf Hin).
Defined.

(** X10.  Given both identifiers, [checkIfLinked] passes exactly when
    [link] would succeed. *)
Theorem checkIfLinked_agrees_with_link (d m : string) (t : Table) :
  checkIfLinked (Some d) (Some m) t = Return tt <->
  fst (link d m t) = Return tt.
Proof.
  unfold checkIfLinked. rewrite !or_empty_Some.
  destruct (get (fun r => (discord r =? d) || (minecraft r =? m)) t)
    as [row|] eqn:Hget.
  - unfold link. rewrite Hget. split.
    + destruct (column_eq (discord row) (Some d));
        [|destruct (truthy (minecraft row))]; discriminate.
    + destruct (truthy (discord row) && truthy (minecraft row));
        [|destruct (truthy (discord row))]; discriminate.
  - rewrite (LinksTableFacts.link_free d m t Hget). tauto.
Qed.

(** X11.  Given the Discord id alone, on a table without an empty Minecraft
    id, [checkIfLinked] raises [AlreadyLinkedError('both')] when the id is
    linked and passes when it is not. *)
Theorem checkIfLinked_discord_only (d : string) (t : Table) :
  (forall r, In r t -> minecraft r <> "") ->
  (In d (map discord t) ->
   checkIfLinked (Some d) None t = Throw (AlreadyLinkedError "both")) /\
  (~ In d (map discord t) -> checkIfLinked (Some d) None t = Return tt).
Proof.
  intros Hne. unfold checkIfLinked. rewrite or_empty_Some. cbn [or_empty].
  destruct (get (fun r => (discord r =? d) || (minecraft r =? "")) t)
    as [row|] eqn:Hget.
  - unfold get in Hget. apply find_some in Hget as [Hin Hp].
    apply orb_true_iff in Hp as [Hp|Hp].
    + simpl. rewrite Hp. apply String.eqb_eq in Hp. split; [reflexivity|].
      intros Habs. exfalso. apply Habs. rewrite <- Hp. apply in_map. assumption.
    + apply String.eqb_eq in Hp. exfalso. exact (Hne row Hin Hp).
  - apply get_free in Hget as [Hd _]. split; [contradiction | reflexivity].
Qed.

(** X11 on a table of one link. *)
Lemma checkIfLinked_discord_only_witness :
  let t := [{| minecraft := "m1"; discord := "d1" |}] in
  (forall r, In r t -> minecraft r <> "") /\
  checkIfLinked (Some "d1") None t = Throw (AlreadyLinkedError "both") /\
  checkIfLinked (Some "d2") None t = Return tt.
Proof.
  intros t.
  assert (Hne : forall r, In r t -> minecraft r <> "").
  { intros r [<-|[]]. discriminate. }
  split; [exact Hne|]. split.
  - apply (proj1 (checkIfLinked_discord_only "d1" t Hne)). left. reflexivity.
  - apply (proj2 (checkIfLinked_discord_only "d2" t Hne)).
    simpl. intuition discriminate.
Defined.

(** X12.  Given a non-empty Minecraft id alone, on a table without an empty
    Discord id, [checkIfLinked] raises [AlreadyLinkedError('minecraft')]
    when the id is linked and passes when it is not. *)
Theorem checkIfLinked_minecraft_only (m : string) (t : Table) :
  (forall r, In r t -> discord r <> "") -> m <> "" ->
  (In m (map minecraft t) ->
   checkIfLinked None (Some m) t = Throw (AlreadyLinkedError "minecraft")) /\
  (~ In m (map minecraft t) -> checkIfLinked None (Some m) t = Return tt).
Proof.
  intros Hne Hm. unfold checkIfLinked. rewrite or_empty_Some. cbn [or_empty].
  destruct (get (fun r => (discord r =? "") || (minecraft r =? m)) t)
    as [row|] eqn:Hget.
  - unfold get in Hget. apply find_some in Hget as [Hin Hp].
    apply orb_true_iff in Hp as [Hp|Hp].
    + apply String.eqb_eq in Hp. exfalso. exact (Hne row Hin Hp).
    + apply String.eqb_eq in Hp. cbn [column_eq].
      apply truthy_true in Hm. rewrite Hp, Hm. split; [reflexivity|].
      intros Habs. exfalso. apply Habs. rewrite <- Hp. apply in_map. assumption.
  - apply get_free in Hget as [_ Habs]. split; [contradiction | reflexivity].
Qed.

(** X12 on a table of one link. *)
Lemma checkIfLinked_minecraft_only_witness :
  let t := [{| minecraft := "m1"; discord := "d1" |}] in
  (forall r, In r t -> discord r <> "") /\ "m1" <> "" /\
  checkIfLinked None (Some "m1") t = Throw (AlreadyLinkedError "minecraft") /\
  checkIfLinked None (Some "m2") t = Return tt.
Proof.
  intros t.
  assert (Hne : forall r, In r t -> discord r <> "").
  { intros r [<-|[]]. discriminate. }
  split; [exact Hne|]. split; [discriminate|]. split.
  - apply (proj1 (checkIfLinked_minecraft_only "m1" t Hne ltac:(discriminate))).
    left. reflexivity.
  - assert (H2 : "m2" <> "") by discriminate.
    apply (proj2 (checkIfLinked_minecraft_only "m2" t Hne H2)).
    simpl. intuition discriminate.
Defined.



End LinksTableMore.

(** ** [AuthCodes]: codes issued and looked up *)

Module AuthCodesMore.
Import AuthCodes.

Lemma split_head (sep : ascii) (s : string) :
  exists w ws rest,
    split sep s = w :: ws /\ occurs sep w = false /\ s = (w ++ rest)%string.
Proof.
  induction s as [|c s' IH]; simpl.
  - exists "", [], "". repeat split.
  - destruct (Ascii.eqb c sep) eqn:Hc.
    + exists "", (split sep s'), (String c s'). repeat split.
    + destruct IH as (w & ws & rest & Hs & Hw & E). rewrite Hs.
      exists (String c w), ws, rest. simpl. rewrite Hc, Hw, <- E.
      repeat split.
Qed.

(** X14.  The code drawn from an identifier holds no dash and is a prefix
    of the identifier: all of it when the identifier has no dash, the part
    before the first dash otherwise. *)
Theorem generateAuthCodeString_prefix (uuid : string) :
  occurs dash (generateAuthCodeString uuid) = false /\
  (exists rest, uuid = (generateAuthCodeString uuid ++ rest)%string) /\
  (occurs dash uuid = false -> generateAuthCodeString uuid = uuid) /\
  (forall first rest, occurs dash first = false ->
     uuid = (first ++ String dash rest)%string ->
     generateAuthCodeString uuid = first).
Proof.
  unfold generateAuthCodeString. split; [|split; [|split]].
  - destruct (split_head dash uuid) as (w & ws & rest & Hs & Hw & _).
    rewrite Hs. assumption.
  - destruct (split_head dash uuid) as (w & ws & rest & Hs & _ & E).
    rewrite Hs. exists rest. assumption.
  - intros H. rewrite (split_no_sep dash uuid H). reflexivity.
  - intros first rest Hf E. rewrite E, (split_app_sep dash first rest Hf).
    reflexivity.
Qed.

Example generateAuthCodeString_v1 :
  generateAuthCodeString "6ba7b810-9dad-11d1-80b4-00c04fd430c8" = "6ba7b810".
Proof. reflexivity. Qed.

Section Issued.
Variables code mc : string.

Local Abbreviation row := {| auth_code := code; mc_id := mc |}.
Local Abbreviation rewrite_row := (AuthCodes.rewrite_row code mc).

Lemma find_rewritten_mc (t : Table) :
  In mc (map mc_id t) ->
  find (fun r => mc_id r =? mc) (map rewrite_row t) = Some row.
Proof.
  induction t as [|a t IH]; simpl; intros Hin; [contradiction|].
  destruct (String.eqb_spec (mc_id a) mc) as [E|E].
  - rewrite (AuthCodesFacts.rewrite_row_hit code mc a E). simpl.
    rewrite String.eqb_refl. reflexivity.
  - rewrite (AuthCodesFacts.rewrite_row_miss code mc a E).
    apply String.eqb_neq in E. rewrite E. apply IH.
    apply String.eqb_neq in E. destruct Hin; [contradiction | assumption].
Qed.

Lemma find_rewritten_code (t : Table) :
  (forall r, In r t -> auth_code r = code -> mc_id r = mc) ->
  In mc (map mc_id t) ->
  find (fun r => auth_code r =? code) (map rewrite_row t) = Some row.
Proof.
  induction t as [|a t IH]; simpl; intros Hfresh Hin; [contradiction|].
  destruct (String.eqb_spec (mc_id a) mc) as [E|E].
  - rewrite (AuthCodesFacts.rewrite_row_hit code mc a E). simpl.
    rewrite String.eqb_refl. reflexivity.
  - rewrite (AuthCodesFacts.rewrite_row_miss code mc a E).
    destruct (String.eqb_spec (auth_code a) code) as [Ec|Ec].
    + exfalso. apply E. apply Hfresh; [left; reflexivity | assumption].
    + apply IH; [intros r Hr; apply Hfresh; right; assumption|].
      destruct Hin; [contradiction | assumption].
Qed.

Lemma find_rewritten_other (mc' : string) (t : Table) :
  mc' <> mc ->
  find (fun r => mc_id r =? mc') (map rewrite_row t)
  = find (fun r => mc_id r =? mc') t.
Proof.
  intros Hne. induction t as [|a t IH]; simpl; [reflexivity|].
  destruct (String.eqb_spec (mc_id a) mc) as [E|E].
  - rewrite (AuthCodesFacts.rewrite_row_hit code mc a E). simpl.
    assert (H1 : (mc =? mc') = false) by (apply String.eqb_neq; congruence).
    assert (H2 : (mc_id a =? mc') = false) by (apply String.eqb_neq; congruence).
    rewrite H1, H2. assumption.
  - rewrite (AuthCodesFacts.rewrite_row_miss code mc a E), IH. reflexivity.
Qed.

(** The statement is rejected exactly when another Minecraft id holds the
    code. *)
Lemma clash_iff (t : Table) :
  existsb (fun r => (auth_code r =? code) && negb (mc_id r =? mc)) t = true <->
  exists r, In r t /\ auth_code r = code /\ mc_id r <> mc.
Proof.
  rewrite existsb_exists. split; intros (r & Hr & H); exists r.
  - apply andb_true_iff in H as [Hc Hm]. apply String.eqb_eq in Hc.
    apply negb_true_iff, String.eqb_neq in Hm. tauto.
  - destruct H as [Hc Hm]. split; [assumption|].
    apply String.eqb_eq in Hc. apply String.eqb_neq in Hm.
    rewrite Hc, Hm. reflexivity.
Qed.

Lemma no_clash_fresh (t : Table) :
  existsb (fun r => (auth_code r =? code) && negb (mc_id r =? mc)) t = false ->
  forall r, In r t -> auth_code r = code -> mc_id r = mc.
Proof.
  intros H r Hr Hc.
  destruct (String.eqb_spec (mc_id r) mc) as [E|E]; [assumption|].
  assert (Habs : existsb (fun r => (auth_code r =? code) && negb (mc_id r =? mc)) t
                 = true) by (apply clash_iff; eauto).
  congruence.
Qed.

Lemma upsert_lookup (t : Table) (r : AuthCodeProfile) :
  fst (upsert code mc t) = Return r ->
  r = row /\
  getMinecraftPlayer mc (snd (upsert code mc t)) = Some row /\
  getAuthCode code (snd (upsert code mc t)) = Some row.
Proof.
  unfold upsert, getMinecraftPlayer, getAuthCode.
  destruct (existsb (fun r => (auth_code r =? code) && negb (mc_id r =? mc)) t)
    eqn:E0; [simpl; discriminate|].
  pose proof (no_clash_fresh t E0) as Hfresh.
  destruct (existsb (fun r => mc_id r =? mc) t) eqn:E; simpl; intros H;
    injection H as <-; (split; [reflexivity|]).
  - apply AuthCodesFacts.existsb_mc_id in E. split.
    + apply find_rewritten_mc. assumption.
    + apply find_rewritten_code; assumption.
  - assert (Hmiss : forall a, In a t -> (mc_id a =? mc) = false).
    { apply AuthCodesFacts.existsb_false_forall. assumption. }
    split.
    + rewrite find_app_miss; [simpl; rewrite String.eqb_refl; reflexivity|].
      apply find_none_iff. assumption.
    + rewrite find_app_miss; [simpl; rewrite String.eqb_refl; reflexivity|].
      apply find_none_iff. intros a Ha.
      apply String.eqb_neq. intros Hc.
      pose proof (Hmiss a Ha) as Hm. apply String.eqb_neq in Hm.
      apply Hm. apply Hfresh; assumption.
Qed.

End Issued.

(** X15.  A code that [assertAuthCode] has returned is found at once by
    both lookups: by the Minecraft id and by the code, each yielding the
    returned row. *)
Theorem assertAuthCode_then_lookup
  (uuid mc : string) (t : Table) (r : AuthCodeProfile) :
  fst (assertAuthCode uuid mc t) = Return r ->
  r = {| auth_code := generateAuthCodeString uuid; mc_id := mc |} /\
  getMinecraftPlayer mc (snd (assertAuthCode uuid mc t)) = Some r /\
  getAuthCode (generateAuthCodeString uuid) (snd (assertAuthCode uuid mc t))
  = Some r.
Proof.
  unfold assertAuthCode. intros H.
  destruct (upsert_lookup _ _ _ _ H) as (E & H1 & H2).
  rewrite E. auto.
Qed.

(** X15 with B pending and a fresh code drawn for A. *)
Lemma assertAuthCode_then_lookup_witness :
  let t := [{| auth_code := "aaaaaaaa"; mc_id := "B" |}] in
  let uuid := "bbbbbbbb-0000-1000-8000-000000000000" in
  let r := {| auth_code := "bbbbbbbb"; mc_id := "A" |} in
  fst (assertAuthCode uuid "A" t) = Return r /\
  getMinecraftPlayer "A" (snd (assertAuthCode uuid "A" t)) = Some r /\
  getAuthCode "bbbbbbbb" (snd (assertAuthCode uuid "A" t)) = Some r.
Proof.
  intros t uuid r. split; [reflexivity|].
  exact (proj2 (assertAuthCode_then_lookup uuid "A" t r eq_refl)).
Defined.

(** X16.  [assertAuthCode] fails exactly when the code it drew is pending
    for another Minecraft id; it then raises the store's constraint error
    and leaves the table as it was. *)
Theorem assertAuthCode_failure (uuid mc : string) (t : Table) :
  ((exists e, fst (assertAuthCode uuid mc t) = Throw e) <->
   (exists r, In r t /\ auth_code r = generateAuthCodeString uuid /\
              mc_id r <> mc)) /\
  (forall e, fst (assertAuthCode uuid mc t) = Throw e ->
     (exists message, e = SqliteError message) /\
     snd (assertAuthCode uuid mc t) = t).
Proof.
  unfold assertAuthCode, upsert.
  rewrite <- (clash_iff (generateAuthCodeString uuid) mc t).
  destruct (existsb
              (fun r => (auth_code r =? generateAuthCodeString uuid)
                        && negb (mc_id r =? mc)) t).
  - split.
    + split; [reflexivity | intros _; eexists; reflexivity].
    + simpl. intros e H. injection H as <-. split; [eexists|]; reflexivity.
  - destruct (existsb (fun r => mc_id r =? mc) t); simpl.
    + split; [split; [intros [e H] | intros H]; discriminate|].
      intros e H. discriminate.
    + split; [split; [intros [e H] | intros H]; discriminate|].
      intros e H. discriminate.
Qed.

(** X17.  [assertAuthCode] keeps the constraints of the schema: one row at
    most per Minecraft id, one row at most per code. *)
Theorem assertAuthCode_keeps_wf (uuid mc : string) (t : Table) :
  wf t -> wf (snd (assertAuthCode uuid mc t)).
Proof.
  intros H. unfold assertAuthCode. apply AuthCodesFacts.upsert_wf. assumption.
Qed.

(** X17 with B pending and a code drawn for A. *)
Lemma assertAuthCode_keeps_wf_witness :
  let t := [{| auth_code := "aaaaaaaa"; mc_id := "B" |}] in
  wf t /\ wf (snd (assertAuthCode "bbbbbbbb-0000-1000-8000-000000000000" "A" t)).
Proof.
  intros t.
  assert (Hwf : wf t).
  { split; simpl; (constructor; [simpl; tauto | constructor]). }
  split; [exact Hwf|].
  exact (assertAuthCode_keeps_wf "bbbbbbbb-0000-1000-8000-000000000000" "A" t Hwf).
Defined.

(** X18.  Issuing a code for one Minecraft id never changes what is pending
    for another. *)
Theorem assertAuthCode_keeps_others (uuid mc mc' : string) (t : Table) :
  mc' <> mc ->
  getMinecraftPlayer mc' (snd (assertAuthCode uuid mc t))
  = getMinecraftPlayer mc' t.
Proof.
  intros Hne. unfold assertAuthCode, upsert, getMinecraftPlayer.
  destruct (existsb
              (fun r => (auth_code r =? generateAuthCodeString uuid)
                        && negb (mc_id r =? mc)) t); [reflexivity|].
  destruct (existsb (fun r => mc_id r =? mc) t); simpl.
  - apply find_rewritten_other. assumption.
  - destruct (find (fun r => mc_id r =? mc') t) as [r|] eqn:Hf.
    + clear - Hf. induction t as [|a t IH]; simpl in *; [discriminate|].
      destruct (mc_id a =? mc'); [assumption | auto].
    + rewrite find_app_miss by assumption. simpl.
      assert (H : (mc =? mc') = false) by (apply String.eqb_neq; congruence).
      rewrite H. reflexivity.
Qed.

(** X18 with B pending and a code drawn, twice, for A. *)
Lemma assertAuthCode_keeps_others_witness :
  let t := [{| auth_code := "aaaaaaaa"; mc_id := "B" |}] in
  "B" <> "A" /\
  getMinecraftPlayer "B"
    (snd (assertAuthCode "bbbbbbbb-0000-1000-8000-000000000000" "A" t))
  = Some {| auth_code := "aaaaaaaa"; mc_id := "B" |}.
Proof.
  intros t.
  assert (Hne : "B" <> "A") by discriminate.
  split; [exact Hne|].
  rewrite (assertAuthCode_keeps_others
             "bbbbbbbb-0000-1000-8000-000000000000" "A" "B" t Hne).
  reflexivity.
Defined.

(** X19.  On a table meeting the schema the two lookups agree: a code
    leads to a row exactly when that row's Minecraft id leads back to it. *)
Theorem pending_lookups_agree (c : string) (r : AuthCodeProfile) (t : Table) :
  wf t ->
  (getAuthCode c t = Some r <->
   getMinecraftPlayer (mc_id r) t = Some r /\ auth_code r = c).
Proof.
  intros [Hmc Hcode]. unfold getAuthCode, getMinecraftPlayer. split.
  - intros H. apply find_some in H as [Hin E]. apply String.eqb_eq in E.
    split; [apply (find_unique mc_id t r Hmc Hin) | assumption].
  - intros [H E]. apply find_some in H as [Hin _]. rewrite <- E.
    apply (find_unique auth_code t r Hcode Hin).
Qed.

(** X19 on a table of two pending codes. *)
Lemma pending_lookups_agree_witness :
  let t := [{| auth_code := "aaaaaaaa"; mc_id := "A" |};
            {| auth_code := "bbbbbbbb"; mc_id := "B" |}] in
  let r := {| auth_code := "bbbbbbbb"; mc_id := "B" |} in
  wf t /\ getAuthCode "bbbbbbbb" t = Some r /\
  getMinecraftPlayer "B" t = Some r.
Proof.
  intros t r.
  assert (Hwf : wf t).
  { split; simpl; repeat constructor; simpl; intuition discriminate. }
  split; [exact Hwf|]. split; [reflexivity|].
  exact (proj1 (proj1 (pending_lookups_agree "bbbbbbbb" r t Hwf) eq_refl)).
Defined.

End AuthCodesMore.

(** ** [WebServer]: what every request meets *)

Module WebServerMore.
Import WebServer.
Local Open Scope js_scope.

(** Case analysis on the next test the reply depends on. *)
Ltac next_case :=
  match goal with
  | |- context [match authorization ?i with _ => _ end] =>
      destruct (authorization i) as [?h|] eqn:?
  | |- context [if occurs space ?x then _ else _] =>
      destruct (occurs space x) eqn:?
  | |- context [if loose_eq ?o ?t then _ else _] =>
      destruct (loose_eq o t) eqn:?
  | |- context [if ?m "/isValidPlayer" ?i then _ else _] =>
      destruct (m "/isValidPlayer" i) eqn:?
  | |- context [match json ?i with _ => _ end] =>
      destruct (json i) as [?b|?e] eqn:?
  | |- context [if loose_undefined ?v then _ else _] =>
      destruct (loose_undefined v) eqn:?
  | |- context [if negb ?c then _ else _] =>
      destruct c eqn:?; cbn [negb]
  | |- context [match getDiscordID ?o ?v with _ => _ end] =>
      destruct (getDiscordID o v) as [?d|?e] eqn:?
  | |- context [match isTierThree ?o ?v with _ => _ end] =>
      destruct (isTierThree o v) as [[|]|?e] eqn:?
  | |- context [if instanceof_NoDiscordAccError ?x then _ else _] =>
      destruct (instanceof_NoDiscordAccError x) eqn:?
  end.

Section EveryRequest.

Variable this : Fields.
Variables isValid isNotValid : JsValue.
Variables noBodyError noPlayerID playerIDType : JsValue.
Variable matches_post : string -> Incoming -> bool.

Local Abbreviation serve :=
  (WebServer.serve this isValid isNotValid noBodyError noPlayerID playerIDType
     matches_post).

(** One request, by every test it meets. *)
Lemma serve_unfolded (i : Incoming) :
  serve i =
  match authorization i with
  | None => respond 203 None (initial i)
  | Some h =>
      if occurs space h then
        if loose_eq (nth_error (split space h) 1) (token this) then
          if matches_post "/isValidPlayer" i then
            match json i with
            | Return b =>
                let w := attach_body b (initial i) in
                if loose_undefined b then respond 400 (Some noBodyError) w
                else
                  let p := own_player_id b in
                  let w' := with_header "Content-Type" "application/json" w in
                  if loose_undefined p then respond 400 (Some noPlayerID) w'
                  else if negb (typeof p =? "string")%string then
                    respond 400 (Some playerIDType) w'
                  else verdict this isValid isNotValid (attach_player_id p w')
            | Throw e => handed_over (Uncaught e) (initial i)
            end
          else handed_over NoRoute (initial i)
        else respond 401 None (initial i)
      else respond 203 None (initial i)
  end.
Proof.
  rewrite WebServerFacts.serve_eq.
  destruct (authorization i) as [h|]; [|reflexivity].
  destruct (occurs space h); [|reflexivity].
  destruct (loose_eq (nth_error (split space h) 1) (token this)); [|reflexivity].
  rewrite WebServerFacts.routed_eq.
  destruct (matches_post "/isValidPlayer" i); [|reflexivity].
  destruct (json i) as [b|e]; [|reflexivity].
  rewrite WebServerFacts.validation_eq by reflexivity. reflexivity.
Qed.


(** X21.  At most one lookup and one role check are made per request, in
    that order; the lookup is made with the string the request carries as
    [player_id], and the role check, made only when the lookup returned, is
    asked about exactly what the lookup returned. *)
Theorem calls_made (i : Incoming) :
  log (serve i) = [] \/
  exists s, player_id (req (serve i)) = JString s /\
    ((exists e, getDiscordID (db this) (JString s) = Throw e /\
                log (serve i) = [DbGetDiscordID (JString s)]) \/
     (exists d, getDiscordID (db this) (JString s) = Return d /\
                log (serve i) = [DbGetDiscordID (JString s); IsTierThree d])).
Proof.
  rewrite serve_unfolded.
  repeat next_case; cbv zeta; repeat next_case; try (left; reflexivity).
  right.
  match goal with H : (typeof ?p =? "string")%string = true |- _ =>
    destruct (WebServerFacts.typeof_string p H) as [s Hs]; rewrite Hs end.
  exists s. unfold verdict. cbn [attach_player_id with_req req player_id].
  repeat next_case; (split; [reflexivity|]);
    solve [left; eexists; split; reflexivity
          | right; eexists; split; reflexivity].
Qed.

(** X22.  An authorized request that Express does not route to
    [POST /isValidPlayer] is left, unanswered, to the final handler; so is
    one whose body the parser rejects, with the parser's error. *)
Theorem unrouted_or_unparsed (i : Incoming) (h : string) :
  authorization i = Some h -> occurs space h = true ->
  nth_error (split space h) 1 = Some (token this) ->
  (matches_post "/isValidPlayer" i = false ->
   serve i = handed_over NoRoute (initial i)) /\
  (forall e, matches_post "/isValidPlayer" i = true -> json i = Throw e ->
   serve i = handed_over (Uncaught e) (initial i)).
Proof.
  intros Hh Hs Ht. apply WebServerFacts.loose_eq_true in Ht.
  rewrite serve_unfolded, Hh, Hs, Ht. split.
  - intros Hm. rewrite Hm. reflexivity.
  - intros e Hm Hj. rewrite Hm, Hj. reflexivity.
Qed.

End EveryRequest.


(** X22 on a request for another route and on one the parser rejects. *)
Lemma unrouted_or_unparsed_witness :
  let this := server_over [] (fun _ => Return false) "secret" in
  let app := application this "no body" literal_post in
  let elsewhere := {| method := "GET"; path := "/"; authorization := Some "Bearer secret";
                      json := Return JUndefined |} in
  let broken := {| method := "POST"; path := "/isValidPlayer";
                   authorization := Some "Bearer secret";
                   json := Throw (OtherError "Unexpected token") |} in
  (occurs space "Bearer secret" = true /\
   nth_error (split space "Bearer secret") 1 = Some (token this)) /\
  app elsewhere = handed_over NoRoute (initial elsewhere) /\
  app broken = handed_over (Uncaught (OtherError "Unexpected token")) (initial broken).
Proof.
  intros this app elsewhere broken.
  split; [split; reflexivity|]. split.
  - apply (proj1 (unrouted_or_unparsed this isValid isNotValid
                    (noBodyError "no body") noPlayerID playerIDType literal_post
                    elsewhere "Bearer secret" eq_refl eq_refl eq_refl)).
    reflexivity.
  - apply (proj2 (unrouted_or_unparsed this isValid isNotValid
                    (noBodyError "no body") noPlayerID playerIDType literal_post
                    broken "Bearer secret" eq_refl eq_refl eq_refl));
      reflexivity.
Defined.

(** X23.  The reply [{valid: true}] goes only to a request that bears the
    configured token and carries a string [player_id] for which the lookup
    returned and the role check answered [true]; its status is 200. *)
Theorem valid_only_when_role_held
  (this : Fields) (no_body_message : string)
  (matches_post : string -> Incoming -> bool) (i : Incoming) :
  payload (res (application this no_body_message matches_post i))
  = Some (JObject [("valid", JBool true)]) ->
  statusCode (res (application this no_body_message matches_post i)) = 200 /\
  (exists h, authorization i = Some h /\
             nth_error (split space h) 1 = Some (token this)) /\
  (exists s d,
     player_id (req (application this no_body_message matches_post i)) = JString s /\
     getDiscordID (db this) (JString s) = Return d /\
     isTierThree (discord this) d = Return true).
Proof.
  unfold application. rewrite serve_unfolded. unfold verdict.
  repeat next_case; cbv zeta; repeat next_case; simpl; try discriminate.
  intros _. split; [reflexivity|]. split.
  - eexists. split; [reflexivity|]. apply WebServerFacts.loose_eq_true. assumption.
  - match goal with H : (typeof ?p =? "string")%string = true |- _ =>
      destruct (WebServerFacts.typeof_string p H) as [s Hs]; rewrite Hs in * end.
    eexists. eexists. split; [reflexivity|]. split; eassumption.
Qed.

(** X23 on a linked player who holds the role. *)
Lemma valid_only_when_role_held_witness :
  let this := server_over [{| LinksTable.minecraft := "p1"; LinksTable.discord := "d1" |}]
                (fun _ => Return true) "secret" in
  let i := validation_request "secret" (JObject [("player_id", JString "p1")]) in
  payload (res (application this "no body" literal_post i))
  = Some (JObject [("valid", JBool true)]) /\
  statusCode (res (application this "no body" literal_post i)) = 200 /\
  isTierThree (discord this) (JString "d1") = Return true.
Proof.
  intros this i.
  assert (H : payload (res (application this "no body" literal_post i))
              = Some (JObject [("valid", JBool true)])) by reflexivity.
  split; [exact H|].
  destruct (valid_only_when_role_held this "no body" literal_post i H)
    as (Hs & _ & _).
  split; [exact Hs | reflexivity].
Defined.

(** X24.  For an authorized request with a string [player_id]: when the
    lookup returns and the role check answers, the reply is 200 with
    [{valid: <the answer>}]; when the lookup itself throws, the role check
    is not made and the reply is [{valid: false}], with status 200 for a
    [NoDiscordAccError] and 500 for anything else. *)
Theorem resolution_outcomes
  (this : Fields) (no_body_message : string)
  (matches_post : string -> Incoming -> bool)
  (i : Incoming) (h s : string) (b : JsValue) :
  authorization i = Some h -> occurs space h = true ->
  nth_error (split space h) 1 = Some (token this) ->
  matches_post "/isValidPlayer" i = true ->
  json i = Return b ->
  loose_undefined b = false -> own_player_id b = JString s ->
  let w := application this no_body_message matches_post i in
  (forall d v, getDiscordID (db this) (JString s) = Return d ->
     isTierThree (discord this) d = Return v ->
     res w = reply 200 content_type_json (Some (JObject [("valid", JBool v)])) /\
     log w = [DbGetDiscordID (JString s); IsTierThree d]) /\
  (forall e, getDiscordID (db this) (JString s) = Throw e ->
     res w = reply (if instanceof_NoDiscordAccError e then 200 else 500)
               content_type_json (Some (JObject [("valid", JBool false)])) /\
     log w = [DbGetDiscordID (JString s)]).
Proof.
  intros Hh Hs Ht Hm Hj Hb Hp w. unfold w, application.
  apply WebServerFacts.loose_eq_true in Ht.
  rewrite serve_unfolded, Hh, Hs, Ht, Hm, Hj, Hb. cbv zeta. rewrite Hp.
  cbn [loose_undefined typeof String.eqb Ascii.eqb Bool.eqb negb].
  unfold verdict. cbn [attach_player_id with_req req player_id]. split.
  - intros d v Hd Hv. rewrite Hd, Hv. destruct v; split; reflexivity.
  - intros e He. rewrite He. split; reflexivity.
Qed.

(** X24 on a linked player without the role and on a lookup that fails. *)
Lemma resolution_outcomes_witness :
  let t := [{| LinksTable.minecraft := "p1"; LinksTable.discord := "d1" |}] in
  let this := server_over t (fun _ => Return false) "secret" in
  let failing := {| db := {| getDiscordID := fun _ => Throw NoDiscordAccError |};
                    discord := {| isTierThree := fun _ => Return true |};
                    port := 8080%N; token := "secret" |} in
  let b := JObject [("player_id", JString "p1")] in
  let i := validation_request "secret" b in
  (occurs space "Bearer secret" = true /\
   literal_post "/isValidPlayer" i = true /\ own_player_id b = JString "p1") /\
  res (application this "no body" literal_post i)
  = reply 200 content_type_json (Some (JObject [("valid", JBool false)])) /\
  log (application failing "no body" literal_post i)
  = [DbGetDiscordID (JString "p1")].
Proof.
  intros t this failing b i.
  split; [repeat split|]. split.
  - apply (proj1 (resolution_outcomes this "no body" literal_post i
                    "Bearer secret" "p1" b
                    eq_refl eq_refl eq_refl eq_refl eq_refl eq_refl eq_refl)
             (JString "d1") false); reflexivity.
  - apply (proj2 (resolution_outcomes failing "no body" literal_post i
                    "Bearer secret" "p1" b
                    eq_refl eq_refl eq_refl eq_refl eq_refl eq_refl eq_refl)
             NoDiscordAccError). reflexivity.
Defined.

End WebServerMore.
